(** * WhatsApp multi-account manager: a shallow embedding and its properties

    The development follows [src/utils/whatsappManager.js] (the
    [WhatsAppManager] class), [src/index.js] (the Express handlers around
    the webhook-secret cache) and the database glue ([db], with its
    one-minute [queryCache]).

    JavaScript strings are [string]; a [Map] whose iteration order is
    irrelevant is a [gmap]; the number-format cache, whose oldest key is
    evicted, is an association list in insertion order.  Exceptions are the
    left summand of a sum type.  The outcomes of the external collaborators
    (the transport client, the HTTP client, the database) are inputs of the
    operations.

    Part I holds the definitions, Part II the properties of the session
    life cycle, the outbound queue, the webhook fan-out, the secret cache
    and the normalizer, Part III further properties of these and of the
    start of the process, the query cache, the batched message log, the
    session middleware and media messages. *)

From Stdlib Require Import String Ascii List Bool Arith NArith ZArith Lia Permutation.
From stdpp Require Import base option list gmap strings pretty fin_maps.
Import ListNotations.
Open Scope string_scope.
Open Scope list_scope.

(* ================================================================== *)
(** * Part I: definitions *)
(* ================================================================== *)

(** ** The JavaScript string primitives the sources rely on *)
Module JS.

(** The character class [\d]: the ten ASCII digits. *)
Definition is_digit (c : ascii) : bool :=
  let n := N_of_ascii c in ((48 <=? n) && (n <=? 57))%N.

(** [s.replace(/[^\d]/g, '')]: every non-digit is dropped. *)
Fixpoint remove_non_digits (s : string) : string :=
  match s with
  | EmptyString => EmptyString
  | String c r =>
      if is_digit c then String c (remove_non_digits r)
      else remove_non_digits r
  end.

Fixpoint all_digits (s : string) : bool :=
  match s with
  | EmptyString => true
  | String c r => is_digit c && all_digits r
  end.

(** [/^\d{10,}$/.test(s)]: the whole string is ten digits or more. *)
Definition test_ten_or_more_digits (s : string) : bool :=
  all_digits s && (10 <=? String.length s)%nat.

(** [s.replace(/^0+/, '')]: the leading run of zeros is dropped. *)
Fixpoint remove_leading_zeros (s : string) : string :=
  match s with
  | EmptyString => EmptyString
  | String c r =>
      if Ascii.eqb c "0" then remove_leading_zeros r else String c r
  end.

(** [s.startsWith(p)] *)
Fixpoint startsWith (s p : string) {struct p} : bool :=
  match p, s with
  | EmptyString, _ => true
  | String _ _, EmptyString => false
  | String a p', String b s' => Ascii.eqb a b && startsWith s' p'
  end.

(** [s.includes(p)] *)
Fixpoint includes (s p : string) : bool :=
  startsWith s p ||
  match s with
  | EmptyString => false
  | String _ r => includes r p
  end.

(** Truthiness of a string: only the empty string is falsy. *)
Definition truthy (s : string) : bool :=
  match s with EmptyString => false | _ => true end.

End JS.

(** ** PhoneNumberNormalizer ([formatPhoneNumber], [getFormattedNumber]) *)
Module Normalizer.

(** The digits the JID is built from: the three rewriting steps of
    [formatPhoneNumber] before the suffix is appended. *)
Definition cleaned (number : string) : string :=
  let cleaned := JS.remove_non_digits number in
  let cleaned :=
    if negb (JS.test_ten_or_more_digits cleaned) then "91" +:+ cleaned
    else cleaned in
  JS.remove_leading_zeros cleaned.

Definition formatPhoneNumber (number : string) : string :=
  cleaned number +:+ "@c.us".

(** [numberFormatCache]: a [Map] from raw numbers to JIDs, in insertion
    order; [None] until the first call creates it. *)
Definition NumberCache := list (string * string).

Fixpoint Map_get (k : string) (m : NumberCache) : option string :=
  match m with
  | [] => None
  | (k', v) :: r => if String.eqb k' k then Some v else Map_get k r
  end.

(** [Map.prototype.set]: an existing key keeps its place, a new one goes
    last. *)
Fixpoint Map_set (k v : string) (m : NumberCache) : NumberCache :=
  match m with
  | [] => [(k, v)]
  | (k', v') :: r =>
      if String.eqb k' k then (k', v) :: r else (k', v') :: Map_set k v r
  end.

Definition Map_delete (k : string) (m : NumberCache) : NumberCache :=
  List.filter (fun e => negb (String.eqb (fst e) k)) m.

(** [m.keys().next().value], [undefined] on an empty map. *)
Definition Map_first_key (m : NumberCache) : option string :=
  match m with [] => None | (k, _) :: _ => Some k end.

Definition getFormattedNumber (number : string) (c : option NumberCache)
  : string * option NumberCache :=
  let cache := match c with None => [] | Some m => m end in
  match Map_get number cache with
  | Some v => (v, Some cache)
  | None =>
      let formattedNumber := formatPhoneNumber number in
      let cache :=
        if (1000 <? length cache)%nat then
          match Map_first_key cache with
          | Some oldestKey => Map_delete oldestKey cache
          | None => cache
          end
        else cache in
      (formattedNumber, Some (Map_set number formattedNumber cache))
  end.

(** The cache after a history of calls, starting from a fresh manager. *)
Definition cache_after (calls : list string) : option NumberCache :=
  fold_left (fun c n => snd (getFormattedNumber n c)) calls None.

(** Every entry of the memoization cache maps a number to its JID. *)
Definition cache_sound (m : NumberCache) : Prop :=
  Forall (fun e => snd e = formatPhoneNumber (fst e)) m.

Definition opt_cache_sound (c : option NumberCache) : Prop :=
  match c with None => True | Some m => cache_sound m end.

End Normalizer.

(** ** The database glue ([db]) *)
Module Db.

(** An exception: the message of the JavaScript [Error]. *)
Definition Error := string.

(** A row of [whatsapp_accounts]. *)
Record AccountRow := {
  row_name : string;
  row_description : string;
  row_status : string;
  row_phone_number : option string;
  row_qr_code : option string;
  row_error_message : option string;
}.

(** A row of [webhooks]. *)
Record Webhook := {
  id : string;
  account_id : string;
  url : string;
  secret : string;
  is_active : bool;
}.

#[global] Instance Webhook_eq_dec : EqDecision Webhook.
Proof. solve_decision. Defined.

(** An entry of [queryCache]: [{ data, timestamp }]. *)
Record CachedQuery := { data : list Webhook; timestamp : Z }.

(** The tables and the module-level [queryCache]. *)
Record t := {
  whatsapp_accounts : gmap string AccountRow;
  webhooks : list Webhook;
  queryCache : gmap string CachedQuery;
}.

Definition CACHE_TTL : Z := 60000.

Definition with_accounts (f : gmap string AccountRow -> gmap string AccountRow) (d : t) : t :=
  {| whatsapp_accounts := f (whatsapp_accounts d);
     webhooks := webhooks d; queryCache := queryCache d |}.

Definition with_webhooks (f : list Webhook -> list Webhook) (d : t) : t :=
  {| whatsapp_accounts := whatsapp_accounts d;
     webhooks := f (webhooks d); queryCache := queryCache d |}.

Definition with_queryCache (f : gmap string CachedQuery -> gmap string CachedQuery) (d : t) : t :=
  {| whatsapp_accounts := whatsapp_accounts d;
     webhooks := webhooks d; queryCache := f (queryCache d) |}.

(** What the database answers to one request: an error, or it serves it. *)
Inductive Reply := Failed (e : Error) | Served.

(** [db.createAccount]: one insert. *)
Definition createAccount (accountId : string) (row : AccountRow) (r : Reply) (d : t)
  : t * (Error + AccountRow) :=
  match r with
  | Failed e => (d, inl e)
  | Served => (with_accounts (insert accountId row) d, inr row)
  end.

(** [db.updateAccount]: an update of the rows with this id; no row is not
    an error. *)
Definition updateAccount (accountId : string) (updates : AccountRow -> AccountRow)
  (r : Reply) (d : t) : t * (Error + unit) :=
  match r with
  | Failed e => (d, inl e)
  | Served => (with_accounts (alter updates accountId) d, inr tt)
  end.

(** [db.deleteAccount] *)
Definition deleteAccount (accountId : string) (r : Reply) (d : t) : t * (Error + bool) :=
  match r with
  | Failed e => (d, inl e)
  | Served => (with_accounts (delete accountId) d, inr true)
  end.

Definition webhooks_key (accountId : string) : string := "webhooks_" +:+ accountId.

(** [db.createWebhook]: the insert, then the query cache of the account is
    dropped when the row carries an account id.  The table is kept in the
    order the queries return it, newest first, and the new row is taken to
    be the newest. *)
Definition createWebhook (webhookData : Webhook) (r : Reply) (d : t)
  : t * (Error + Webhook) :=
  match r with
  | Failed e => (d, inl e)
  | Served =>
      let d := with_webhooks (cons webhookData) d in
      let d :=
        if JS.truthy (account_id webhookData)
        then with_queryCache (delete (webhooks_key (account_id webhookData))) d
        else d in
      (d, inr webhookData)
  end.

(** [db.getWebhooks]: the cached list while it is younger than
    [CACHE_TTL], else the rows of the account, which are cached. *)
Definition getWebhooks (accountId : string) (now : Z) (r : Reply) (d : t)
  : t * (Error + list Webhook) :=
  let cacheKey := webhooks_key accountId in
  let fresh :=
    match queryCache d !! cacheKey with
    | Some cachedData =>
        if (now - CACHE_TTL <? timestamp cachedData)%Z
        then Some (data cachedData) else None
    | None => None
    end in
  match fresh with
  | Some l => (d, inr l)
  | None =>
      match r with
      | Failed e => (d, inl e)
      | Served =>
          let rows :=
            List.filter (fun w => String.eqb (account_id w) accountId) (webhooks d) in
          (with_queryCache (insert cacheKey {| data := rows; timestamp := now |}) d,
           inr rows)
      end
  end.

(** The message of the error of [.single()] when no row matches. *)
Definition no_rows : Error := "JSON object requested, multiple (or no) rows returned".

(** [db.getWebhook] returns [data]; with [.single()] the query is an
    error when no row has the id. *)
Definition getWebhook (wid : string) (r : Reply) (d : t) : Error + option Webhook :=
  match r with
  | Failed e => inl e
  | Served =>
      match List.find (fun w => String.eqb (id w) wid) (webhooks d) with
      | Some w => inr (Some w)
      | None => inl no_rows
      end
  end.

(** [db.updateWebhook]: the rows with the id are updated; the query cache
    of the account of the first updated row is dropped. *)
Definition updateWebhook (wid : string) (updates : Webhook -> Webhook)
  (r : Reply) (d : t) : t * (Error + option Webhook) :=
  match r with
  | Failed e => (d, inl e)
  | Served =>
      let data :=
        map updates (List.filter (fun w => String.eqb (id w) wid) (webhooks d)) in
      let d :=
        with_webhooks
          (map (fun w => if String.eqb (id w) wid then updates w else w)) d in
      let d :=
        match hd_error data with
        | Some updated =>
            if JS.truthy (account_id updated)
            then with_queryCache (delete (webhooks_key (account_id updated))) d
            else d
        | None => d
        end in
      (d, inr (hd_error data))
  end.

(** How the delete of a webhook row goes: at once, or blocked by the
    foreign key of [message_logs] (code 23503), after which the logs are
    detached and the delete is tried again. *)
Inductive DeleteReply :=
| Deleted
| DeleteFailed (e : Error)
| ForeignKey (e : Error) (nullify retry : Reply).

(** [db.deleteWebhook]: the account id is read first (a failure of that
    read is swallowed), and the query cache of that account is dropped
    after the delete. *)
Definition deleteWebhook (wid : string) (prefetch : Reply) (r : DeleteReply) (d : t)
  : t * (Error + bool) :=
  let webhookAccountId :=
    match prefetch with
    | Failed _ => None
    | Served =>
        match List.find (fun w => String.eqb (id w) wid) (webhooks d) with
        | Some existing =>
            if JS.truthy (account_id existing) then Some (account_id existing) else None
        | None => None
        end
    end in
  let remove := with_webhooks (List.filter (fun w => negb (String.eqb (id w) wid))) in
  let outcome :=
    match r with
    | Deleted => (remove d, None)
    | DeleteFailed e => (d, Some e)
    | ForeignKey e (Failed _) _ => (d, Some e)
    | ForeignKey _ Served (Failed e') => (d, Some e')
    | ForeignKey _ Served Served => (remove d, None)
    end in
  match outcome with
  | (d, Some e) => (d, inl e)
  | (d, None) =>
      let d :=
        match webhookAccountId with
        | Some a => with_queryCache (delete (webhooks_key a)) d
        | None => d
        end in
      (d, inr true)
  end.

End Db.

(** ** The session manager ([WhatsAppManager]) *)
Module Manager.
Import Normalizer.

Definition Error := string.

(** The browser page of a client: [pupPage._closed]. *)
Record Page := { closed : bool }.

(** A transport client, as far as the manager looks into it: [pupPage]
    is absent until the browser is up. *)
Record Client := { pupPage : option Page }.

(** An entry of a message queue; [options] plays no part in any decision
    and is left out. *)
Record QueueItem := {
  item_number : string;
  item_message : string;
  item_timestamp : Z;
}.

(** What [client.sendMessage] resolves to. *)
Record SentMessage := {
  sent_id : string;
  sent_from : string;
  sent_to : string;
  sent_timestamp : Z;
}.

(** What [sendMessage] returns. *)
Record SendResult := {
  success : bool;
  messageId : string;
  result_timestamp : Z;
}.

(** A record handed to [db.logMessage]; [created_at] is the reading of
    the clock and is left out. *)
Record LogData := {
  log_account_id : string;
  log_direction : string;
  log_status : string;
  log_message_id : option string;
  log_sender : option string;
  log_recipient : option string;
  log_message : option string;
  log_timestamp : option Z;
  log_type : option string;
  log_webhook_id : option string;
  log_webhook_url : option string;
  log_response_status : option Z;
  log_error_message : option string;
}.

(** A call made on a transport client. *)
Inductive TransportCall :=
| Initialize (accountId : string)
| Send (accountId formattedNumber message : string)
| Destroy (accountId : string).

(** The three maps of the constructor, the two created on first use, the
    database, and what the manager has handed to the outside: log records
    scheduled with [setImmediate], lines of [console.error], calls on the
    transport clients. *)
Record World := {
  clients : gmap string Client;
  qrCodes : gmap string string;
  accountStatus : gmap string string;
  messageQueues : option (gmap string (list QueueItem));
  numberFormatCache : option NumberCache;
  database : Db.t;
  scheduled_logs : list LogData;
  console : list string;
  transport : list TransportCall;
}.

(** The manager and an empty database at process start. *)
Definition initial : World :=
  {| clients := ∅; qrCodes := ∅; accountStatus := ∅;
     messageQueues := None; numberFormatCache := None;
     database := {| Db.whatsapp_accounts := ∅; Db.webhooks := []; Db.queryCache := ∅ |};
     scheduled_logs := []; console := []; transport := [] |}.

Definition set_clients (v : gmap string Client) (w : World) : World :=
  {| clients := v; qrCodes := qrCodes w; accountStatus := accountStatus w;
     messageQueues := messageQueues w; numberFormatCache := numberFormatCache w;
     database := database w; scheduled_logs := scheduled_logs w;
     console := console w; transport := transport w |}.

Definition set_qrCodes (v : gmap string string) (w : World) : World :=
  {| clients := clients w; qrCodes := v; accountStatus := accountStatus w;
     messageQueues := messageQueues w; numberFormatCache := numberFormatCache w;
     database := database w; scheduled_logs := scheduled_logs w;
     console := console w; transport := transport w |}.

Definition set_accountStatus (v : gmap string string) (w : World) : World :=
  {| clients := clients w; qrCodes := qrCodes w; accountStatus := v;
     messageQueues := messageQueues w; numberFormatCache := numberFormatCache w;
     database := database w; scheduled_logs := scheduled_logs w;
     console := console w; transport := transport w |}.

Definition set_messageQueues (v : option (gmap string (list QueueItem))) (w : World) : World :=
  {| clients := clients w; qrCodes := qrCodes w; accountStatus := accountStatus w;
     messageQueues := v; numberFormatCache := numberFormatCache w;
     database := database w; scheduled_logs := scheduled_logs w;
     console := console w; transport := transport w |}.

Definition set_numberFormatCache (v : option NumberCache) (w : World) : World :=
  {| clients := clients w; qrCodes := qrCodes w; accountStatus := accountStatus w;
     messageQueues := messageQueues w; numberFormatCache := v;
     database := database w; scheduled_logs := scheduled_logs w;
     console := console w; transport := transport w |}.

Definition set_database (v : Db.t) (w : World) : World :=
  {| clients := clients w; qrCodes := qrCodes w; accountStatus := accountStatus w;
     messageQueues := messageQueues w; numberFormatCache := numberFormatCache w;
     database := v; scheduled_logs := scheduled_logs w;
     console := console w; transport := transport w |}.

(** [logOutgoingMessage] and [logWebhookDelivery]: the record is handed
    to [setImmediate]; the caller goes on at once. *)
Definition schedule_log (l : LogData) (w : World) : World :=
  {| clients := clients w; qrCodes := qrCodes w; accountStatus := accountStatus w;
     messageQueues := messageQueues w; numberFormatCache := numberFormatCache w;
     database := database w; scheduled_logs := scheduled_logs w ++ [l];
     console := console w; transport := transport w |}.

Definition console_error (line : string) (w : World) : World :=
  {| clients := clients w; qrCodes := qrCodes w; accountStatus := accountStatus w;
     messageQueues := messageQueues w; numberFormatCache := numberFormatCache w;
     database := database w; scheduled_logs := scheduled_logs w;
     console := console w ++ [line]; transport := transport w |}.

Definition call_transport (c : TransportCall) (w : World) : World :=
  {| clients := clients w; qrCodes := qrCodes w; accountStatus := accountStatus w;
     messageQueues := messageQueues w; numberFormatCache := numberFormatCache w;
     database := database w; scheduled_logs := scheduled_logs w;
     console := console w; transport := transport w ++ [c] |}.

(** *** [sendMessage] *)

Definition queue_full : Error := "Message queue is full. Please try again later.".
Definition client_not_found : Error := "WhatsApp client not found for this account".
Definition page_closed : Error := "WhatsApp client page is closed or not available".

(** The template literal with the status, [undefined] printed as such. *)
Definition not_ready (status : option string) : Error :=
  "WhatsApp client is not ready. Current status: " +:+
  match status with Some st => st | None => "undefined" end.

(** [status !== 'ready'] *)
Definition status_not_ready (status : option string) : bool :=
  match status with Some st => negb (String.eqb st "ready") | None => true end.

(** [!client.pupPage || client.pupPage._closed] *)
Definition page_unusable (client : Client) : bool :=
  match pupPage client with None => true | Some pg => closed pg end.

(** The queue array of an account, as [messageQueues.get] gives it. *)
Definition queue_of (accountId : string) (w : World) : list QueueItem :=
  match messageQueues w with
  | Some queues => default [] (queues !! accountId)
  | None => []
  end.

Definition outgoing_failed (accountId number message : string) (e : Error) : LogData :=
  {| log_account_id := accountId; log_direction := "outgoing"; log_status := "failed";
     log_message_id := None; log_sender := None; log_recipient := Some number;
     log_message := Some message; log_timestamp := None; log_type := None;
     log_webhook_id := None; log_webhook_url := None; log_response_status := None;
     log_error_message := Some e |}.

Definition outgoing_success (accountId message : string) (result : SentMessage) : LogData :=
  {| log_account_id := accountId; log_direction := "outgoing"; log_status := "success";
     log_message_id := Some (sent_id result); log_sender := Some (sent_from result);
     log_recipient := Some (sent_to result); log_message := Some message;
     log_timestamp := Some (sent_timestamp result);
     log_type := Some "text"; log_webhook_id := None; log_webhook_url := None;
     log_response_status := None; log_error_message := None |}.

(** [sendMessage] up to the [await]: the queue of the account is created
    on first use, the depth is checked outside the [try], the three checks
    of the client run inside it, the number is formatted, the item is
    pushed and [client.sendMessage] is called.  An exception thrown inside
    the [try] is logged as a failed outgoing message and thrown again. *)
Definition sendMessage_start (accountId number message : string) (now : Z) (w : World)
  : World * (Error + QueueItem) :=
  let queues := match messageQueues w with Some q => q | None => ∅ end in
  let queues :=
    match queues !! accountId with
    | Some _ => queues
    | None => <[accountId := []]> queues
    end in
  let w := set_messageQueues (Some queues) w in
  let queue := default [] (queues !! accountId) in
  if (20 <? length queue)%nat then (w, inl queue_full)
  else
    let attempt : World * (Error + QueueItem) :=
      match clients w !! accountId with
      | None => (w, inl client_not_found)
      | Some client =>
          let status := accountStatus w !! accountId in
          if status_not_ready status then (w, inl (not_ready status))
          else if page_unusable client then (w, inl page_closed)
          else
            let fc := getFormattedNumber number (numberFormatCache w) in
            let formattedNumber := fst fc in
            let w := set_numberFormatCache (snd fc) w in
            let queueItem :=
              {| item_number := formattedNumber; item_message := message;
                 item_timestamp := now |} in
            let w :=
              set_messageQueues (Some (<[accountId := queue ++ [queueItem]]> queues)) w in
            (call_transport (Send accountId formattedNumber message) w, inr queueItem)
      end in
    match attempt with
    | (w, inl e) => (schedule_log (outgoing_failed accountId number message e) w, inl e)
    | (w, inr queueItem) => (w, inr queueItem)
    end.

(** [queue.findIndex(...)] with the predicate of [sendMessage]. *)
Definition same_item (queueItem item : QueueItem) : bool :=
  String.eqb (item_number item) (item_number queueItem) &&
  String.eqb (item_message item) (item_message queueItem) &&
  (item_timestamp item =? item_timestamp queueItem)%Z.

Fixpoint findIndex (p : QueueItem -> bool) (queue : list QueueItem) : option nat :=
  match queue with
  | [] => None
  | item :: rest => if p item then Some 0 else S <$> findIndex p rest
  end.

(** [if (index !== -1) queue.splice(index, 1)] on the array the map holds. *)
Definition remove_from_queue (accountId : string) (queueItem : QueueItem) (w : World) : World :=
  match messageQueues w with
  | Some queues =>
      match queues !! accountId with
      | Some queue =>
          match findIndex (same_item queueItem) queue with
          | Some index =>
              set_messageQueues (Some (<[accountId := delete index queue]> queues)) w
          | None => w
          end
      | None => w
      end
  | None => w
  end.

(** [sendMessage] from the point where [client.sendMessage] settles. *)
Definition sendMessage_finish (accountId number message : string) (queueItem : QueueItem)
  (outcome : Error + SentMessage) (w : World) : World * (Error + SendResult) :=
  match outcome with
  | inr result =>
      let w := remove_from_queue accountId queueItem w in
      let w := schedule_log (outgoing_success accountId message result) w in
      (w, inr {| success := true; messageId := sent_id result;
                 result_timestamp := sent_timestamp result |})
  | inl e =>
      (schedule_log (outgoing_failed accountId number message e) w, inl e)
  end.

(** A call of [sendMessage] that nothing interleaves with; [outcome] is
    what the transport client answers if it is asked. *)
Definition sendMessage (accountId number message : string) (now : Z)
  (outcome : Error + SentMessage) (w : World) : World * (Error + SendResult) :=
  match sendMessage_start accountId number message now w with
  | (w, inl e) => (w, inl e)
  | (w, inr queueItem) => sendMessage_finish accountId number message queueItem outcome w
  end.

(** The conditions under which [sendMessage] admits an item. *)
Definition admissible (accountId : string) (w : World) : Prop :=
  length (queue_of accountId w) <= 20 /\
  (exists client, clients w !! accountId = Some client /\ page_unusable client = false) /\
  accountStatus w !! accountId = Some "ready".

(** *** [deleteAccount] *)

(** [destroy] is what [client.destroy()] answers if it is called, [r] what
    the database answers to the delete if it is asked. *)
Definition deleteAccount (accountId : string) (destroy : Error + unit) (r : Db.Reply)
  (w : World) : World * (Error + bool) :=
  let attempt : World * (Error + bool) :=
    let destroyed : World * (Error + unit) :=
      match clients w !! accountId with
      | Some client =>
          let w := call_transport (Destroy accountId) w in
          match destroy with
          | inl e => (w, inl e)
          | inr _ => (set_clients (delete accountId (clients w)) w, inr tt)
          end
      | None => (w, inr tt)
      end in
    match destroyed with
    | (w, inl e) => (w, inl e)
    | (w, inr _) =>
        let w := set_qrCodes (delete accountId (qrCodes w)) w in
        let w := set_accountStatus (delete accountId (accountStatus w)) w in
        match Db.deleteAccount accountId r (database w) with
        | (d, inl e) => (set_database d w, inl e)
        | (d, inr b) => (set_database d w, inr b)
        end
    end in
  match attempt with
  | (w, inl e) => (console_error "Error deleting account:" w, inl e)
  | (w, inr b) => (w, inr b)
  end.

(** *** [sendToWebhooks] *)

(** The data of an incoming message, as [handleIncomingMessage] builds
    them. *)
Record MessageData := {
  md_account_id : string;
  md_direction : string;
  md_message_id : string;
  md_sender : string;
  md_recipient : string;
  md_message : string;
  md_timestamp : Z;
  md_type : string;
  md_chat_id : string;
  md_is_group : bool;
  md_group_name : option string;
  md_media : option string;
}.

(** The reduced payload of [optimizePayloadForN8n]. *)
Record N8nPayload := {
  n8n_account_id : string;
  n8n_direction : string;
  n8n_sender : string;
  n8n_recipient : string;
  n8n_message : string;
  n8n_timestamp : Z;
  n8n_type : string;
  n8n_chat_id : string;
  n8n_is_group : bool;
  n8n_optimized : bool;
}.

Definition optimizePayloadForN8n (messageData : MessageData) : N8nPayload :=
  {| n8n_account_id := md_account_id messageData;
     n8n_direction := md_direction messageData;
     n8n_sender := md_sender messageData;
     n8n_recipient := md_recipient messageData;
     n8n_message := md_message messageData;
     n8n_timestamp := md_timestamp messageData;
     n8n_type := md_type messageData;
     n8n_chat_id := md_chat_id messageData;
     n8n_is_group := md_is_group messageData;
     n8n_optimized := true |}.

Inductive Payload := Full (messageData : MessageData) | Reduced (payload : N8nPayload).

(** The request [axios.post] is given. *)
Record Request := {
  req_url : string;
  req_payload : Payload;
  req_secret : string;
  req_account : string;
  req_timeout : Z;
}.

(** What the network does with a request: an answer with a status, or
    none (a connection error, or the timeout), with the message of the
    error. *)
Inductive HttpOutcome := Responded (status : Z) | NoResponse (message : string).

(** [axios.post] with the default [validateStatus] of axios: the promise
    is rejected unless the status is 2xx. *)
Definition axios_post (o : HttpOutcome) : Error + Z :=
  match o with
  | Responded status =>
      if ((200 <=? status) && (status <? 300))%Z then inr status
      else inl ("Request failed with status code " +:+ pretty status)
  | NoResponse message => inl message
  end.

(** What the function given to [map] resolves to. *)
Record Attempt := {
  attempt_success : bool;
  attempt_webhook_id : string;
  attempt_error : option string;
}.

Definition webhook_log (accountId : string) (webhook : Db.Webhook) (r : Error + Z) : LogData :=
  {| log_account_id := accountId; log_direction := "webhook";
     log_status := match r with inr _ => "success" | inl _ => "failed" end;
     log_message_id := None; log_sender := None; log_recipient := None;
     log_message := None; log_timestamp := None; log_type := None;
     log_webhook_id := Some (Db.id webhook);
     log_webhook_url := Some (Db.url webhook);
     log_response_status := match r with inr status => Some status | inl _ => None end;
     log_error_message := match r with inr _ => None | inl e => Some e end |}.

(** The request for one webhook: the n8n targets get the reduced payload
    and the short timeout. *)
Definition request_for (accountId : string) (messageData : MessageData)
  (webhook : Db.Webhook) : Request :=
  let isN8n :=
    JS.includes (Db.url webhook) "n8n" || JS.includes (Db.url webhook) "nodemation" in
  let timeout := if isN8n then 5000%Z else 10000%Z in
  let payload :=
    if isN8n then Reduced (optimizePayloadForN8n messageData) else Full messageData in
  {| req_url := Db.url webhook; req_payload := payload;
     req_secret := Db.secret webhook; req_account := accountId;
     req_timeout := timeout |}.

(** The body of the function given to [map], from the point where the
    request settles: both branches of its [try] log the delivery and
    return. *)
Definition deliver (accountId : string) (messageData : MessageData)
  (http : Request -> HttpOutcome) (webhook : Db.Webhook) (w : World)
  : World * (Error + Attempt) :=
  match axios_post (http (request_for accountId messageData webhook)) with
  | inr status =>
      (schedule_log (webhook_log accountId webhook (inr status)) w,
       inr {| attempt_success := true; attempt_webhook_id := Db.id webhook;
              attempt_error := None |})
  | inl e =>
      (schedule_log (webhook_log accountId webhook (inl e)) w,
       inr {| attempt_success := false; attempt_webhook_id := Db.id webhook;
              attempt_error := Some e |})
  end.

(** A promise of [webhookPromises]: its webhook, and how it settled, if
    it has. *)
Abbreviation Promise := (Db.Webhook * option (Error + Attempt))%type.

Definition settled (p : Promise) : bool :=
  match snd p with Some _ => true | None => false end.

(** The request of promise [i] settles; nothing happens if there is no
    such promise or it has settled before. *)
Definition settle (accountId : string) (messageData : MessageData)
  (http : Request -> HttpOutcome) (st : World * list Promise) (i : nat)
  : World * list Promise :=
  match snd st !! i with
  | Some (webhook, None) =>
      let res := deliver accountId messageData http webhook (fst st) in
      (fst res, <[i := (webhook, Some (snd res))]> (snd st))
  | _ => st
  end.

(** [try { body } catch (error) { handler }] *)
Definition try_catch {A : Type} (body : World * (Error + A))
  (handler : Error -> World -> World * (Error + A)) : World * (Error + A) :=
  match body with
  | (w, inl e) => handler e w
  | (w, inr a) => (w, inr a)
  end.

(** [sendToWebhooks]: the requests to the active webhooks are all sent,
    and settle in the order [order]; [Promise.allSettled] lets the call
    return when every promise has settled.  [None] is a call still
    waiting at the end of [order]. *)
Definition sendToWebhooks (accountId : string) (messageData : MessageData) (now : Z)
  (r : Db.Reply) (http : Request -> HttpOutcome) (order : list nat) (w : World)
  : World * option (Error + unit) :=
  let fetched := Db.getWebhooks accountId now r (database w) in
  let w := set_database (fst fetched) w in
  match snd fetched with
  | inl e =>
      let caught :=
        try_catch (w, inl e)
          (fun _ w => (console_error "Error sending to webhooks:" w, inr tt)) in
      (fst caught, Some (snd caught))
  | inr webhooks =>
      if (length webhooks =? 0)%nat then (w, Some (inr tt))
      else
        let webhookPromises : list Promise :=
          map (fun webhook => (webhook, None)) (List.filter Db.is_active webhooks) in
        let st := fold_left (settle accountId messageData http) order (w, webhookPromises) in
        if forallb settled (snd st) then (fst st, Some (inr tt))
        else (fst st, None)
  end.

(** The webhooks [sendToWebhooks] sends to, and the record each delivery
    leaves. *)
Definition active_webhooks (accountId : string) (now : Z) (r : Db.Reply) (w : World)
  : list Db.Webhook :=
  match snd (Db.getWebhooks accountId now r (database w)) with
  | inr webhooks => List.filter Db.is_active webhooks
  | inl _ => []
  end.

Definition delivery_record (accountId : string) (messageData : MessageData)
  (http : Request -> HttpOutcome) (webhook : Db.Webhook) : LogData :=
  webhook_log accountId webhook
    (axios_post (http (request_for accountId messageData webhook))).

(** The record a promise has left, if it has settled. *)
Definition record_of (accountId : string) (messageData : MessageData)
  (http : Request -> HttpOutcome) (p : Promise) : option LogData :=
  match snd p with
  | Some _ => Some (delivery_record accountId messageData http (fst p))
  | None => None
  end.

(** What holds of the promises and the log while the requests settle:
    the log has grown by the records of the settled promises. *)
Definition settling (accountId : string) (messageData : MessageData)
  (http : Request -> HttpOutcome) (w0 : World) (active : list Db.Webhook)
  (st : World * list Promise) : Prop :=
  fst <$> snd st = active /\
  exists logged, scheduled_logs (fst st) = scheduled_logs w0 ++ logged /\
    logged ≡ₚ omap (record_of accountId messageData http) (snd st).

(** A promise that has settled. *)
Definition settled_at (promises : list Promise) (i : nat) : Prop :=
  exists p, promises !! i = Some p /\ settled p = true.

(** *** [createAccount], [setupEventHandlers], [reconnectAccount] *)

Definition new_client : Client := {| pupPage := None |}.

Definition accountData (accountName description : string) : Db.AccountRow :=
  {| Db.row_name := accountName; Db.row_description := description;
     Db.row_status := "initializing"; Db.row_phone_number := None;
     Db.row_qr_code := None; Db.row_error_message := None |}.

(** The field lists of the calls of [db.updateAccount]. *)
Definition set_status (status : string) (error_message : option string)
  (row : Db.AccountRow) : Db.AccountRow :=
  {| Db.row_name := Db.row_name row; Db.row_description := Db.row_description row;
     Db.row_status := status; Db.row_phone_number := Db.row_phone_number row;
     Db.row_qr_code := Db.row_qr_code row;
     Db.row_error_message :=
       match error_message with Some e => Some e | None => Db.row_error_message row end |}.

Definition set_qr_ready (qr_code : string) (row : Db.AccountRow) : Db.AccountRow :=
  {| Db.row_name := Db.row_name row; Db.row_description := Db.row_description row;
     Db.row_status := "qr_ready"; Db.row_phone_number := Db.row_phone_number row;
     Db.row_qr_code := Some qr_code; Db.row_error_message := Db.row_error_message row |}.

Definition set_ready (phone_number : string) (row : Db.AccountRow) : Db.AccountRow :=
  {| Db.row_name := Db.row_name row; Db.row_description := Db.row_description row;
     Db.row_status := "ready"; Db.row_phone_number := Some phone_number;
     Db.row_qr_code := Db.row_qr_code row; Db.row_error_message := Db.row_error_message row |}.

(** [createAccount]: [accountId] is the fresh uuid, [fs] the outcome of
    the two [ensureDir], [r] the answer of the database to the insert,
    which is awaited last.  The [catch] marks the account as failed. *)
Definition createAccount (accountId accountName description : string)
  (fs : Error + unit) (r : Db.Reply) (w : World) : World * (Error + Db.AccountRow) :=
  let attempt : World * (Error + Db.AccountRow) :=
    match fs with
    | inl e => (w, inl e)
    | inr _ =>
        let created :=
          Db.createAccount accountId (accountData accountName description) r (database w) in
        let w := set_database (fst created) w in
        let w := set_clients (<[accountId := new_client]> (clients w)) w in
        let w := set_accountStatus (<[accountId := "initializing"]> (accountStatus w)) w in
        let w := call_transport (Initialize accountId) w in
        (w, snd created)
    end in
  match attempt with
  | (w, inl e) =>
      let w := console_error "Error creating WhatsApp account:" w in
      (set_accountStatus (<[accountId := "failed"]> (accountStatus w)) w, inl e)
  | (w, inr account) => (w, inr account)
  end.

(** The [catch] on [client.initialize()] in [createAccount]; a failure of
    the database update is swallowed. *)
Definition on_initialize_error (accountId : string) (e : Error) (r : Db.Reply)
  (w : World) : World :=
  let w := console_error "Client initialization error:" w in
  let w := set_accountStatus (<[accountId := "failed"]> (accountStatus w)) w in
  set_database (fst (Db.updateAccount accountId (set_status "failed" (Some e)) r (database w))) w.

(** The handler of [qr]; [qrDataUrl] is the outcome of [qrcode.toDataURL]. *)
Definition on_qr (accountId : string) (qrDataUrl : Error + string) (r : Db.Reply)
  (w : World) : World :=
  match qrDataUrl with
  | inl _ => console_error "Error generating QR code:" w
  | inr dataUrl =>
      let w := set_qrCodes (<[accountId := dataUrl]> (qrCodes w)) w in
      match Db.updateAccount accountId (set_qr_ready dataUrl) r (database w) with
      | (d, inl _) => console_error "Error generating QR code:" (set_database d w)
      | (d, inr _) =>
          set_accountStatus (<[accountId := "qr_ready"]> (accountStatus w)) (set_database d w)
      end
  end.

(** The handler of [ready]; [user] is [client.info.wid.user]. *)
Definition on_ready (accountId user : string) (r : Db.Reply) (w : World) : World :=
  match Db.updateAccount accountId (set_ready user) r (database w) with
  | (d, inl _) => console_error "Error updating account status:" (set_database d w)
  | (d, inr _) =>
      let w := set_database d w in
      let w := set_accountStatus (<[accountId := "ready"]> (accountStatus w)) w in
      set_qrCodes (delete accountId (qrCodes w)) w
  end.

(** The handler of [authenticated] only writes to the console log. *)
Definition on_authenticated (accountId : string) (w : World) : World := w.

(** The handler of [disconnected]: the update of the database, then the
    status. *)
Definition on_status_event (status : string) (accountId reason : string) (r : Db.Reply)
  (w : World) : World :=
  match Db.updateAccount accountId (set_status status (Some reason)) r (database w) with
  | (d, inl _) => console_error "Error updating account status:" (set_database d w)
  | (d, inr _) =>
      set_accountStatus (<[accountId := status]> (accountStatus w)) (set_database d w)
  end.

Definition on_disconnected := on_status_event "disconnected".

(** The handler of [auth_failure] also writes the failure to
    [console.error] once the status is set. *)
Definition on_auth_failure (accountId msg : string) (r : Db.Reply) (w : World) : World :=
  match Db.updateAccount accountId (set_status "auth_failed" (Some msg)) r (database w) with
  | (d, inl _) => console_error "Error updating account status:" (set_database d w)
  | (d, inr _) =>
      console_error ("Authentication failed for account " +:+ accountId +:+ ":")
        (set_accountStatus (<[accountId := "auth_failed"]> (accountStatus w))
           (set_database d w))
  end.

(** The [catch] of [reconnectAccount]: the update of the database is
    awaited, so its failure leaves [reconnectAccount] as an exception and
    the status map is not written. *)
Definition reconnect_failed (accountId : string) (r : Db.Reply) (w : World)
  : World * (Error + unit) :=
  let w := console_error ("Error reconnecting to account " +:+ accountId +:+ ":") w in
  match Db.updateAccount accountId (set_status "disconnected" None) r (database w) with
  | (d, inl e) => (set_database d w, inl e)
  | (d, inr _) =>
      (set_accountStatus (<[accountId := "disconnected"]> (accountStatus w))
         (set_database d w), inr tt)
  end.

(** [reconnectAccount] up to [await client.initialize()]. *)
Definition reconnectAccount_start (accountId : string) (fs : Error + unit) (r : Db.Reply)
  (w : World) : World * (Error + unit) :=
  match fs with
  | inl _ => reconnect_failed accountId r w
  | inr _ =>
      let w := set_clients (<[accountId := new_client]> (clients w)) w in
      let w := set_accountStatus (<[accountId := "initializing"]> (accountStatus w)) w in
      (call_transport (Initialize accountId) w, inr tt)
  end.

(** [reconnectAccount] from the point where [client.initialize()] settles. *)
Definition reconnectAccount_finish (accountId : string) (init : Error + unit) (r : Db.Reply)
  (w : World) : World * (Error + unit) :=
  match init with
  | inr _ => (w, inr tt)
  | inl _ => reconnect_failed accountId r w
  end.

(** [getAccountStatus] and [getQRCode] *)
Definition getAccountStatus (accountId : string) (w : World) : option string :=
  accountStatus w !! accountId.

Definition getQRCode (accountId : string) (w : World) : option string :=
  qrCodes w !! accountId.

(** *** Histories *)

(** What can happen to the manager: a call of one of its operations or an
    event of a transport client, each with the answers of the collaborators
    it consults. *)
Inductive Event :=
| CreateAccount (accountId accountName description : string) (fs : Error + unit) (r : Db.Reply)
| InitializeError (accountId : string) (e : Error) (r : Db.Reply)
| Qr (accountId : string) (qrDataUrl : Error + string) (r : Db.Reply)
| Ready (accountId user : string) (r : Db.Reply)
| Authenticated (accountId : string)
| AuthFailure (accountId msg : string) (r : Db.Reply)
| Disconnected (accountId reason : string) (r : Db.Reply)
| ReconnectStart (accountId : string) (fs : Error + unit) (r : Db.Reply)
| ReconnectFinish (accountId : string) (init : Error + unit) (r : Db.Reply)
| DeleteAccount (accountId : string) (destroy : Error + unit) (r : Db.Reply)
| SendMessage (accountId number message : string) (now : Z) (outcome : Error + SentMessage)
| PageChange (accountId : string) (page : option Page).

Definition step (w : World) (ev : Event) : World :=
  match ev with
  | CreateAccount a n d fs r => fst (createAccount a n d fs r w)
  | InitializeError a e r => on_initialize_error a e r w
  | Qr a q r => on_qr a q r w
  | Ready a u r => on_ready a u r w
  | Authenticated a => on_authenticated a w
  | AuthFailure a m r => on_auth_failure a m r w
  | Disconnected a m r => on_disconnected a m r w
  | ReconnectStart a fs r => fst (reconnectAccount_start a fs r w)
  | ReconnectFinish a i r => fst (reconnectAccount_finish a i r w)
  | DeleteAccount a d r => fst (deleteAccount a d r w)
  | SendMessage a n m t o => fst (sendMessage a n m t o w)
  | PageChange a pg =>
      match clients w !! a with
      | Some _ => set_clients (<[a := {| pupPage := pg |}]> (clients w)) w
      | None => w
      end
  end.

Definition run (events : list Event) (w : World) : World := fold_left step events w.

(** The statuses the code writes. *)
Definition written_statuses : list string :=
  ["initializing"; "qr_ready"; "ready"; "auth_failed"; "disconnected"; "failed"].

(** The account an event is about and the statuses it can write. *)
Definition account_of (ev : Event) : string :=
  match ev with
  | CreateAccount a _ _ _ _ | InitializeError a _ _ | Qr a _ _ | Ready a _ _
  | Authenticated a | AuthFailure a _ _ | Disconnected a _ _ | ReconnectStart a _ _
  | ReconnectFinish a _ _ | DeleteAccount a _ _ | SendMessage a _ _ _ _
  | PageChange a _ => a
  end.

Definition writes (ev : Event) : list string :=
  match ev with
  | CreateAccount _ _ _ _ _ => ["initializing"; "failed"]
  | InitializeError _ _ _ => ["failed"]
  | Qr _ _ _ => ["qr_ready"]
  | Ready _ _ _ => ["ready"]
  | AuthFailure _ _ _ => ["auth_failed"]
  | Disconnected _ _ _ => ["disconnected"]
  | ReconnectStart _ _ _ => ["initializing"; "disconnected"]
  | ReconnectFinish _ _ _ => ["disconnected"]
  | Authenticated _ | DeleteAccount _ _ _ | SendMessage _ _ _ _ _ | PageChange _ _ => []
  end.

(** The five statuses and the edges of the state graph as the
    specification words them, to compare the code with. *)
Definition spec_statuses : list string :=
  ["initializing"; "qr_ready"; "ready"; "auth_failed"; "disconnected"].

Definition spec_edge (from to : string) : bool :=
  (String.eqb from "initializing" && String.eqb to "qr_ready") ||
  (String.eqb from "qr_ready" && String.eqb to "ready") ||
  ((String.eqb from "initializing" || String.eqb from "qr_ready" || String.eqb from "ready")
     && (String.eqb to "auth_failed" || String.eqb to "disconnected")) ||
  (String.eqb from "disconnected" && String.eqb to "initializing").

(** An absent status, or one of the listed ones. *)
Definition status_among (l : list string) (status : option string) : Prop :=
  match status with Some st => In st l | None => True end.

(** What an event does to the status of its account. *)
Inductive StatusEffect :=
| Unchanged
| Removed
| Written (status : string).

(** The effect of each event, by the answers it gets: a handler writes
    its status once the database has taken its update; [createAccount]
    writes [initializing] and then, in its [catch], [failed];
    [reconnectAccount] writes [initializing] once the directory is there
    and [disconnected] from its [catch]; [deleteAccount] removes the
    status unless the client it finds cannot be destroyed. *)
Definition status_effect (w : World) (ev : Event) : StatusEffect :=
  match ev with
  | CreateAccount _ _ _ (inr _) Db.Served => Written "initializing"
  | CreateAccount _ _ _ _ _ => Written "failed"
  | InitializeError _ _ _ => Written "failed"
  | Qr _ (inr _) Db.Served => Written "qr_ready"
  | Qr _ _ _ => Unchanged
  | Ready _ _ Db.Served => Written "ready"
  | Ready _ _ (Db.Failed _) => Unchanged
  | Authenticated _ => Unchanged
  | AuthFailure _ _ Db.Served => Written "auth_failed"
  | AuthFailure _ _ (Db.Failed _) => Unchanged
  | Disconnected _ _ Db.Served => Written "disconnected"
  | Disconnected _ _ (Db.Failed _) => Unchanged
  | ReconnectStart _ (inr _) _ => Written "initializing"
  | ReconnectStart _ (inl _) Db.Served => Written "disconnected"
  | ReconnectStart _ (inl _) (Db.Failed _) => Unchanged
  | ReconnectFinish _ (inr _) _ => Unchanged
  | ReconnectFinish _ (inl _) Db.Served => Written "disconnected"
  | ReconnectFinish _ (inl _) (Db.Failed _) => Unchanged
  | DeleteAccount _ (inr _) _ => Removed
  | DeleteAccount a (inl _) _ =>
      match clients w !! a with Some _ => Unchanged | None => Removed end
  | SendMessage _ _ _ _ _ => Unchanged
  | PageChange _ _ => Unchanged
  end.

(** The status of an account after an effect on it. *)
Definition status_after (effect : StatusEffect) (before : option string) : option string :=
  match effect with
  | Unchanged => before
  | Removed => None
  | Written status => Some status
  end.

(** Every stored row has one of the listed statuses. *)
Definition rows_among (l : list string) (d : Db.t) : Prop :=
  forall accountId row,
    Db.whatsapp_accounts d !! accountId = Some row -> In (Db.row_status row) l.

End Manager.

(** ** The HTTP handlers around the webhook-secret cache ([index.js]) *)
Module Server.

(** [webhookSecretCache]: a [Map] from cache keys to what the validation
    found, the matching webhook or [false]. *)
Record t := {
  manager : Manager.World;
  webhookSecretCache : gmap string (option Db.Webhook);
}.

Definition with_db (d : Db.t) (s : t) : t :=
  {| manager := Manager.set_database d (manager s);
     webhookSecretCache := webhookSecretCache s |}.

Definition with_manager (w : Manager.World) (s : t) : t :=
  {| manager := w; webhookSecretCache := webhookSecretCache s |}.

Definition with_cache (c : gmap string (option Db.Webhook)) (s : t) : t :=
  {| manager := manager s; webhookSecretCache := c |}.

Definition db (s : t) : Db.t := Manager.database (manager s).

(** The status line of a response and what the claims need of its body. *)
Inductive Response :=
| Ok
| Pending
| BadRequest
| Unauthorized
| NotFound
| ServerError (message : string).

(** [Map.prototype.set] takes a key and a value; a third argument is not
    looked at. *)
Definition Map_set {V : Type} (key : string) (value : V) (_ : Z)
  (m : gmap string V) : gmap string V :=
  <[key := value]> m.

(** The callback of [setInterval(..., 3600000)]. *)
Definition hourly_clear (s : t) : t := with_cache ∅ s.

(** The template literal [webhook_${account_id}_${webhook_secret}] and the
    prefix the delete handler looks for. *)
Definition cache_prefix (account_id : string) : string :=
  "webhook_" +:+ account_id +:+ "_".

Definition cacheKey (account_id webhook_secret : string) : string :=
  cache_prefix account_id +:+ webhook_secret.

(** [POST /api/webhooks] *)
Definition post_webhooks (account_id url : string) (secret : option string)
  (is_active : option bool) (uuid : string) (r : Db.Reply) (s : t) : t * Response :=
  if negb (JS.truthy account_id) || negb (JS.truthy url) then (s, BadRequest)
  else
    let webhookData :=
      {| Db.id := uuid; Db.account_id := account_id; Db.url := url;
         Db.secret := default "" secret;
         Db.is_active := match is_active with Some false => false | _ => true end |} in
    match Db.createWebhook webhookData r (db s) with
    | (d, inl e) => (with_db d s, ServerError ("Failed to create webhook: " +:+ e))
    | (d, inr _) => (with_db d s, Ok)
    end.

(** [PATCH /api/webhooks/:id/toggle] *)
Definition patch_webhook_toggle (wid : string) (r_get r_update : Db.Reply) (s : t)
  : t * Response :=
  match Db.getWebhook wid r_get (db s) with
  | inl _ => (s, ServerError "Failed to toggle webhook")
  | inr None => (s, NotFound)
  | inr (Some webhook) =>
      match Db.updateWebhook wid
              (fun row => {| Db.id := Db.id row; Db.account_id := Db.account_id row;
                             Db.url := Db.url row; Db.secret := Db.secret row;
                             Db.is_active := negb (Db.is_active webhook) |})
              r_update (db s) with
      | (d, inl _) => (with_db d s, ServerError "Failed to toggle webhook")
      | (d, inr _) => (with_db d s, Ok)
      end
  end.

(** The loop over the keys of the cache in the delete handler. *)
Definition invalidate (accountId : string) (c : gmap string (option Db.Webhook))
  : gmap string (option Db.Webhook) :=
  filter (fun kv => JS.startsWith (fst kv) (cache_prefix accountId) = false) c.

(** [DELETE /api/webhooks/:id] *)
Definition delete_webhook (wid : string) (r_get prefetch : Db.Reply)
  (r_delete : Db.DeleteReply) (s : t) : t * Response :=
  match Db.getWebhook wid r_get (db s) with
  | inl _ => (s, ServerError "Failed to delete webhook")
  | inr None => (s, NotFound)
  | inr (Some existing) =>
      match Db.deleteWebhook wid prefetch r_delete (db s) with
      | (d, inl _) => (with_db d s, ServerError "Failed to delete webhook")
      | (d, inr _) =>
          let s := with_db d s in
          (with_cache (invalidate (Db.account_id existing) (webhookSecretCache s)) s, Ok)
      end
  end.

(** [POST /api/webhook-reply] up to the check of the secret: the answer
    of the cache if it has one, else the active webhook of the account with
    this secret, looked up through [db.getWebhooks] and cached.  [inr] is
    what [validWebhook] ends up as. *)
Definition webhook_reply_validate (account_id number webhook_secret : string) (now : Z)
  (r : Db.Reply) (s : t) : t * (Response + option Db.Webhook) :=
  if negb (JS.truthy account_id) || negb (JS.truthy number) || negb (JS.truthy webhook_secret)
  then (s, inl BadRequest)
  else
    let key := cacheKey account_id webhook_secret in
    match webhookSecretCache s !! key with
    | Some validWebhook => (s, inr validWebhook)
    | None =>
        match Db.getWebhooks account_id now r (db s) with
        | (d, inl e) => (with_db d s, inl (ServerError e))
        | (d, inr webhooks) =>
            let validWebhook :=
              List.find
                (fun webhook =>
                   String.eqb (Db.secret webhook) webhook_secret && Db.is_active webhook)
                webhooks in
            let s := with_db d s in
            (with_cache (Map_set key validWebhook 300000 (webhookSecretCache s)) s,
             inr validWebhook)
        end
    end.

(** [POST /api/webhook-reply] for a text message: an n8n caller is
    answered before the send has settled, any other caller after. *)
Definition webhook_reply (account_id number message webhook_secret : string)
  (isN8n : bool) (now : Z) (r : Db.Reply) (outcome : Manager.Error + Manager.SentMessage)
  (s : t) : t * Response :=
  match webhook_reply_validate account_id number webhook_secret now r s with
  | (s, inl response) => (s, response)
  | (s, inr None) => (s, Unauthorized)
  | (s, inr (Some _)) =>
      let sent := Manager.sendMessage account_id number message now outcome (manager s) in
      let s := with_manager (fst sent) s in
      if isN8n then (s, Pending)
      else
        match snd sent with
        | inl e => (s, ServerError e)
        | inr _ => (s, Ok)
        end
  end.

(** *** Timed histories *)

(** A request to the server, with the answers of the collaborators. *)
Inductive Request :=
| PostWebhook (account_id url : string) (secret : option string)
    (is_active : option bool) (uuid : string) (r : Db.Reply)
| ToggleWebhook (wid : string) (r_get r_update : Db.Reply)
| DeleteWebhook (wid : string) (r_get prefetch : Db.Reply) (r_delete : Db.DeleteReply)
| WebhookReply (account_id number message webhook_secret : string) (isN8n : bool)
    (r : Db.Reply) (outcome : Manager.Error + Manager.SentMessage).

Definition handle (now : Z) (req : Request) (s : t) : t * Response :=
  match req with
  | PostWebhook a u sec act uuid r => post_webhooks a u sec act uuid r s
  | ToggleWebhook wid rg ru => patch_webhook_toggle wid rg ru s
  | DeleteWebhook wid rg pf rd => delete_webhook wid rg pf rd s
  | WebhookReply a n m sec n8n r o => webhook_reply a n m sec n8n now r o s
  end.

(** The server from time [last] on: each request arrives at its time, in
    milliseconds since the start of the process, and the hourly timer has
    fired before it if a full hour has begun since [last]. *)
Fixpoint serve (last : Z) (requests : list (Z * Request)) (s : t) : t * list Response :=
  match requests with
  | [] => (s, [])
  | (now, req) :: rest =>
      let s := if (last / 3600000 <? now / 3600000)%Z then hourly_clear s else s in
      let handled := handle now req s in
      let served := serve now rest (fst handled) in
      (fst served, snd handled :: snd served)
  end.

End Server.

(** ** Concrete worlds the properties are evaluated on *)
Module Scenario.
Import Manager.

Definition open_client : Client := {| pupPage := Some {| closed := false |} |}.

Definition an_item (n : Z) : QueueItem :=
  {| item_number := "919876543210@c.us"; item_message := "queued";
     item_timestamp := n |}.

(** One account, ["acc"], in the ready state with a usable page and
    [depth] sends in flight. *)
Definition ready_world (depth : nat) : World :=
  {| clients := {["acc" := open_client]};
     qrCodes := ∅;
     accountStatus := {["acc" := "ready"]};
     messageQueues := Some {["acc" := map (fun k => an_item (Z.of_nat k)) (seq 0 depth)]};
     numberFormatCache := None;
     database := database initial;
     scheduled_logs := []; console := []; transport := [] |}.

Definition delivered : SentMessage :=
  {| sent_id := "true_919876543210@c.us_3EB0"; sent_from := "911234567890@c.us";
     sent_to := "919876543210@c.us"; sent_timestamp := 1700000000 |}.

(** The same account with its row in the database. *)
Definition stored_world : World :=
  set_database
    (Db.with_accounts (insert "acc" (set_ready "919876543210" (accountData "Sales" "")))
       (database initial))
    (ready_world 0).

(** An account with three active webhooks and a paused one; the second
    one is an n8n target. *)
Definition crm_hook : Db.Webhook :=
  {| Db.id := "w1"; Db.account_id := "acc"; Db.url := "https://crm.example.com/hook";
     Db.secret := "s3cret"; Db.is_active := true |}.
Definition n8n_hook : Db.Webhook :=
  {| Db.id := "w2"; Db.account_id := "acc"; Db.url := "https://n8n.example.com/webhook/1";
     Db.secret := "n8n-secret"; Db.is_active := true |}.
Definition slow_hook : Db.Webhook :=
  {| Db.id := "w3"; Db.account_id := "acc"; Db.url := "https://slow.example.com/in";
     Db.secret := ""; Db.is_active := true |}.
Definition paused_hook : Db.Webhook :=
  {| Db.id := "w4"; Db.account_id := "acc"; Db.url := "https://old.example.com/in";
     Db.secret := "old"; Db.is_active := false |}.

Definition hooked_world : World :=
  set_database
    (Db.with_webhooks (fun _ => [crm_hook; n8n_hook; slow_hook; paused_hook])
       (database stored_world))
    stored_world.

Definition incoming : MessageData :=
  {| md_account_id := "acc"; md_direction := "incoming"; md_message_id := "false_1@c.us_A1";
     md_sender := "911234567890@c.us"; md_recipient := "919876543210@c.us";
     md_message := "hi"; md_timestamp := 1700000000; md_type := "chat";
     md_chat_id := "911234567890@c.us"; md_is_group := false;
     md_group_name := None; md_media := None |}.

(** The slow target never answers; the others answer 200. *)
Definition slow_times_out (req : Request) : HttpOutcome :=
  if String.eqb (req_url req) "https://slow.example.com/in"
  then NoResponse "timeout of 10000ms exceeded"
  else Responded 200.

(** The server on top of it, with nothing cached yet. *)
Definition server : Server.t :=
  {| Server.manager := hooked_world; Server.webhookSecretCache := ∅ |}.

(** A reply request for the account with the given secret; the database
    answers with [r]. *)
Definition reply (webhook_secret : string) (r : Db.Reply) : Server.Request :=
  Server.WebhookReply "acc" "+919876543210" "thanks" webhook_secret false r (inr delivered).

End Scenario.

(** ** The start of the process ([initializeExistingAccounts]) *)
Module Startup.
Import Manager.

(** One account of the list [db.getAccounts] has returned, with what
    meets its [reconnectAccount]: the outcome of [ensureDir], the events
    that arrive while [client.initialize()] is awaited, the outcome of
    that call, and the answer of the database to the update in the
    [catch]. *)
Record Reconnect := {
  rc_account : string;
  rc_fs : Error + unit;
  rc_during : list Event;
  rc_init : Error + unit;
  rc_reply : Db.Reply;
}.

(** [reconnectAccount], start to end. *)
Definition reconnectAccount (rc : Reconnect) (w : World) : World * (Error + unit) :=
  match rc_fs rc with
  | inl _ => reconnectAccount_start (rc_account rc) (rc_fs rc) (rc_reply rc) w
  | inr _ =>
      let started := reconnectAccount_start (rc_account rc) (rc_fs rc) (rc_reply rc) w in
      reconnectAccount_finish (rc_account rc) (rc_init rc) (rc_reply rc)
        (run (rc_during rc) (fst started))
  end.

(** The [for] loop: each [reconnectAccount] is awaited before the next
    one starts, and an exception leaves the loop. *)
Fixpoint reconnect_each (accounts : list Reconnect) (w : World) : World * (Error + unit) :=
  match accounts with
  | [] => (w, inr tt)
  | rc :: rest =>
      match reconnectAccount rc w with
      | (w, inl e) => (w, inl e)
      | (w, inr _) => reconnect_each rest w
      end
  end.

(** [initializeExistingAccounts]; [accounts] is what [db.getAccounts]
    answers. *)
Definition initializeExistingAccounts (accounts : Error + list Reconnect) (w : World)
  : World :=
  match accounts with
  | inl _ => console_error "Error initializing existing accounts:" w
  | inr l =>
      match reconnect_each l w with
      | (w, inl _) => console_error "Error initializing existing accounts:" w
      | (w, inr _) => w
      end
  end.

End Startup.

(** ** The batched message log ([db.logMessage], [db.flushMessageQueue]) *)
Module LogBatcher.

(** The [error] of a reply of the database client. *)
Record PgError := { code : string; message : string }.

(** What the database client does with one insert: it stores the batch,
    answers with an error, or throws. *)
Inductive InsertReply :=
| Inserted
| Rejected (error : PgError)
| Thrown (e : string).

(** The run of characters other than the quote at the start of a string,
    and what follows it. *)
Fixpoint span_unquoted (s : string) : string * string :=
  match s with
  | EmptyString => (EmptyString, EmptyString)
  | String c r =>
      if Ascii.eqb c "'" then (EmptyString, s)
      else let sp := span_unquoted r in (String c (fst sp), snd sp)
  end.

(** [error.message.match(/'([^']+)' column/)]: the first quoted name that
    is followed by the word [column], that is, group 1 of the leftmost
    match. *)
Fixpoint unknown_column (s : string) : option string :=
  match s with
  | EmptyString => None
  | String c r =>
      if Ascii.eqb c "'" then
        let sp := span_unquoted r in
        if JS.truthy (fst sp) && JS.startsWith (snd sp) "' column"
        then Some (fst sp)
        else unknown_column r
      else unknown_column r
  end.

Section Rows.
(** The records, and [delete copy[unknownCol]] on one of them. *)
Variable Row : Type.
Variable strip : string -> Row -> Row.

(** The two fields [logMessage] adds to [db] on its first call, the
    table, and the lines of [console.error]. *)
Record t := {
  messageQueue : option (list Row);
  lastFlushTime : option Z;
  message_logs : list Row;
  console : list string;
}.

Definition fresh : t :=
  {| messageQueue := None; lastFlushTime := None; message_logs := []; console := [] |}.

(** What becomes of a batch: the rows that were stored, as they are or
    without the column the database does not know, or [None] when an insert
    ended in an error or an exception.  [retry] is the answer to the second
    insert, if there is one. *)
Definition insert_batch (messages : list Row) (first retry : InsertReply)
  : option (list Row) :=
  match first with
  | Inserted => Some messages
  | Thrown _ => None
  | Rejected error =>
      if String.eqb (code error) "PGRST204" then
        match unknown_column (message error) with
        | Some unknownCol =>
            match retry with
            | Inserted => Some (map (strip unknownCol) messages)
            | Rejected _ | Thrown _ => None
            end
        | None => None
        end
      else None
  end.

(** [flushMessageQueue]: the queue is emptied and the time noted before
    the insert; a batch that was not stored is put back in front of the
    queue, which is still empty when no other call has come in between. *)
Definition flushMessageQueue (now : Z) (first retry : InsertReply) (s : t) : t :=
  match messageQueue s with
  | None | Some [] => s
  | Some messages =>
      match insert_batch messages first retry with
      | Some stored =>
          {| messageQueue := Some []; lastFlushTime := Some now;
             message_logs := message_logs s ++ stored; console := console s |}
      | None =>
          {| messageQueue := Some (messages ++ []); lastFlushTime := Some now;
             message_logs := message_logs s;
             console := console s ++ ["Error flushing message queue:"] |}
      end
  end.

(** [Date.now() - this.lastFlushTime > 5000] *)
Definition overdue (now : Z) (last : option Z) : bool :=
  match last with Some l => (5000 <? now - l)%Z | None => false end.

(** [logMessage]: the first call creates the queue; the record is
    pushed, and the queue flushed at ten records or five seconds. *)
Definition logMessage (messageData : Row) (now : Z) (first retry : InsertReply) (s : t)
  : t * Row :=
  let s :=
    match messageQueue s with
    | Some _ => s
    | None =>
        {| messageQueue := Some []; lastFlushTime := Some now;
           message_logs := message_logs s; console := console s |}
    end in
  let queue := default [] (messageQueue s) ++ [messageData] in
  let s :=
    {| messageQueue := Some queue; lastFlushTime := lastFlushTime s;
       message_logs := message_logs s; console := console s |} in
  if (10 <=? length queue)%nat || overdue now (lastFlushTime s)
  then (flushMessageQueue now first retry s, messageData)
  else (s, messageData).

(** A call of [logMessage], or the timer of [setInterval] calling
    [flushMessageQueue]; one call is over before the next begins. *)
Inductive Call :=
| Log (messageData : Row) (now : Z) (first retry : InsertReply)
| Tick (now : Z) (first retry : InsertReply).

Definition call (s : t) (c : Call) : t :=
  match c with
  | Log messageData now first retry => fst (logMessage messageData now first retry s)
  | Tick now first retry => flushMessageQueue now first retry s
  end.

Definition run (calls : list Call) : t := fold_left call calls fresh.

(** The records the calls have logged, in order. *)
Definition logged (calls : list Call) : list Row :=
  omap (fun c => match c with Log m _ _ _ => Some m | Tick _ _ _ => None end) calls.

(** A stored row is the logged record, or the record without a column. *)
Definition sanitized (messageData stored : Row) : Prop :=
  stored = messageData \/ exists unknownCol, stored = strip unknownCol messageData.

(** What is kept of the records while the calls go by: the stored rows
    and the queue are the logged records, in order. *)
Definition kept (records : list Row) (s : t) : Prop :=
  exists flushed,
    records = flushed ++ default [] (messageQueue s) /\
    Forall2 sanitized flushed (message_logs s).

(** *** [getMessageStats] *)

Variable direction : Row -> string.
Variable status : Row -> string.

Record Stats := {
  total : nat;
  incoming : nat;
  outgoing : nat;
  success : nat;
  failed : nat;
}.

(** [getMessageStats] on the rows of the account the query has
    returned. *)
Definition getMessageStats (data : list Row) : Stats :=
  {| total := length data;
     incoming := length (List.filter (fun m => String.eqb (direction m) "incoming") data);
     outgoing := length (List.filter (fun m => String.eqb (direction m) "outgoing") data);
     success := length (List.filter (fun m => String.eqb (status m) "success") data);
     failed := length (List.filter (fun m => String.eqb (status m) "failed") data) |}.

End Rows.

Arguments messageQueue {Row}.
Arguments lastFlushTime {Row}.
Arguments message_logs {Row}.
Arguments console {Row}.
Arguments Log {Row}.
Arguments Tick {Row}.

End LogBatcher.

(** ** The session middleware ([requireAuth], [requireGuest], [login], [logout]) *)
Module Auth.

(** What the handlers keep in [req.session]. *)
Record Session := {
  authenticated : bool;
  username : option string;
  loginTime : option Z;
}.

(** A session the store has just made. *)
Definition anonymous : Session :=
  {| authenticated := false; username := None; loginTime := None |}.

(** What a middleware or a handler does with the request. *)
Inductive Verdict :=
| Next
| Json (status : nat)
| Redirect (location : string).

(** [req.session && req.session.authenticated] *)
Definition is_authenticated (session : option Session) : bool :=
  match session with Some se => authenticated se | None => false end.

Definition requireAuth (session : option Session) (path : string) : Verdict :=
  if is_authenticated session then Next
  else if JS.startsWith path "/api/" then Json 401
  else Redirect "/login".

Definition requireGuest (session : option Session) : Verdict :=
  if is_authenticated session then Redirect "/dashboard" else Next.

(** [process.env.X || fallback] *)
Definition env_or (value : option string) (fallback : string) : string :=
  match value with
  | Some v => if JS.truthy v then v else fallback
  | None => fallback
  end.

(** [login]: [compare] is what hashing the expected password and
    comparing the given one with the hash comes to, an exception or the
    verdict of bcrypt; it is only asked for when the user name is the
    expected one. *)
Definition login (body_username : string) (env_username : option string)
  (compare : string + bool) (now : Z) (session : Session) : Session * Verdict :=
  let expectedUsername := env_or env_username "admin" in
  if String.eqb body_username expectedUsername then
    match compare with
    | inl _ => (session, Json 500)
    | inr true =>
        ({| authenticated := true; username := Some body_username;
            loginTime := Some now |}, Json 200)
    | inr false => (session, Json 401)
    end
  else (session, Json 401).

(** [logout]: [destroy] is the error the session store hands to the
    callback of [req.session.destroy], if any. *)
Definition logout (session : option Session) (destroy : option string)
  : option Session * Verdict :=
  match destroy with
  | Some _ => (session, Json 500)
  | None => (None, Json 200)
  end.

End Auth.

(** ** Media messages ([sendMedia], [deriveDefaultFilename]) *)
Module Media.
Import Manager.

(** [s.split(sep)] for a separator of one character. *)
Fixpoint split (sep : ascii) (s : string) : list string :=
  match s with
  | EmptyString => [EmptyString]
  | String c r =>
      if Ascii.eqb c sep then EmptyString :: split sep r
      else
        match split sep r with
        | first :: others => String c first :: others
        | [] => [String c EmptyString]
        end
  end.

(** [mimetype.split('/')[1] || 'bin'], in the template [media.${ext}]. *)
Definition deriveDefaultFilename (mimetype : string) : string :=
  let ext :=
    match nth_error (split "/" mimetype) 1 with
    | Some e => if JS.truthy e then e else "bin"
    | None => "bin"
    end in
  "media." +:+ ext.

(** The letter in lower case, for the flag [i] of a regular expression. *)
Definition lower (c : ascii) : ascii :=
  let n := N_of_ascii c in
  if ((65 <=? n) && (n <=? 90))%N then ascii_of_N (n + 32) else c.

(** [s] starts with [p], letters compared without case; [p] is in lower
    case. *)
Fixpoint startsWith_i (s p : string) {struct p} : option string :=
  match p, s with
  | EmptyString, _ => Some s
  | String _ _, EmptyString => None
  | String a p', String b s' =>
      if Ascii.eqb a (lower b) then startsWith_i s' p' else None
  end.

(** The run of characters other than [;] at the start of a string, and
    what follows it. *)
Fixpoint span_parameterless (s : string) : string * string :=
  match s with
  | EmptyString => (EmptyString, EmptyString)
  | String c r =>
      if Ascii.eqb c ";" then (EmptyString, s)
      else let sp := span_parameterless r in (String c (fst sp), snd sp)
  end.

(** [/^data:[^;]+;base64,/i]: what is left of the string behind the
    match, if there is one. *)
Definition after_data_url_prefix (s : string) : option string :=
  match startsWith_i s "data:" with
  | Some rest =>
      let sp := span_parameterless rest in
      if JS.truthy (fst sp) then startsWith_i (snd sp) ";base64," else None
  | None => None
  end.

(** The [media] argument: [{ data | url, mimetype?, filename? }]. *)
Record MediaInput := {
  data : option string;
  url : option string;
  mimetype : option string;
  filename : option string;
}.

(** The [options] argument, by the truth of its two fields. *)
Record MediaOptions := {
  sendMediaAsDocument : bool;
  sendAudioAsVoice : bool;
}.

(** What [axios.get] brings: the body in base64 and the header
    [content-type]. *)
Record Download := {
  body : string;
  content_type : option string;
}.

(** [new MessageMedia(mimetype, base64Data, filename)] *)
Record MessageMedia := {
  mm_mimetype : string;
  mm_data : string;
  mm_filename : string;
}.

(** [sendOptions]; a flag that is not set is [false]. *)
Record SendOptions := {
  so_caption : string;
  so_sendAudioAsVoice : bool;
  so_sendMediaAsDocument : bool;
}.

(** The call of [client.sendMessage] with a media message. *)
Record MediaSend := {
  ms_accountId : string;
  ms_formattedNumber : string;
  ms_media : MessageMedia;
  ms_options : SendOptions;
}.

(** The record [sendMedia] logs after a send: direction [outgoing],
    type [media], status [success]. *)
Record MediaLog := {
  ml_account_id : string;
  ml_message_id : string;
  ml_sender : string;
  ml_recipient : string;
  ml_message : string;
  ml_mimetype : string;
  ml_filename : string;
  ml_source : string;
  ml_timestamp : Z;
}.

(** What a call of [sendMedia] leaves: the manager, the URL it has
    fetched, the call it has made on the transport client, the record it
    has logged, and what it returns or throws. *)
Record Run := {
  world : World;
  fetched : option string;
  sent : option MediaSend;
  logged : option MediaLog;
  result : Error + SendResult;
}.

Definition invalid_media : Error :=
  "Invalid media payload. Expect { data | url, mimetype?, filename? }".
Definition mimetype_required : Error := "mimetype is required when sending media".

(** [x || ''] and the truth of [x] for a field that may be absent. *)
Definition or_empty (x : option string) : string := default "" x.
Definition present (x : option string) : bool := JS.truthy (or_empty x).

(** [16 * 1024 * 1024] *)
Definition MAX : Z := 16 * 1024 * 1024.

Section Buffers.
(** [Buffer.byteLength(s, 'base64')] and [(n/1024/1024).toFixed(2)]. *)
Variable byteLength : string -> Z.
Variable megabytes : Z -> string.

Definition too_large (sizeBytes : Z) : Error :=
  "Media too large (" +:+ megabytes sizeBytes +:+ "MB). Max allowed ~16MB".

Definition thrown (w : World) (fetched : option string) (sent : option MediaSend)
  (e : Error) : Run :=
  {| world := w; fetched := fetched; sent := sent; logged := None; result := inl e |}.

(** [sendMedia]: [download] is what [axios.get(media.url)] answers if it
    is asked, [pathname] the path [new URL(media.url)] finds, if the URL
    parses, [outcome] what the transport client answers if it is asked. *)
Definition sendMedia (accountId number : string) (media : option MediaInput)
  (caption : string) (options : MediaOptions)
  (download : Error + Download) (pathname : option string)
  (outcome : Error + SentMessage) (w : World) : Run :=
  match media with
  | None => thrown w None None invalid_media
  | Some media =>
  if negb (present (data media)) && negb (present (url media))
  then thrown w None None invalid_media
  else
  match clients w !! accountId with
  | None => thrown w None None client_not_found
  | Some client =>
  let status := accountStatus w !! accountId in
  if status_not_ready status then thrown w None None (not_ready status)
  else if page_unusable client then thrown w None None page_closed
  else
  let base64Data := or_empty (data media) in
  let mimetype := or_empty (mimetype media) in
  let filename := or_empty (filename media) in
  let fetch := present (url media) && negb (JS.truthy base64Data) in
  let fetched := if fetch then url media else None in
  match (if fetch then download else inr {| body := base64Data; content_type := None |}) with
  | inl e => thrown w fetched None e
  | inr response =>
  let base64Data := if fetch then body response else base64Data in
  let mimetype :=
    if fetch then
      if JS.truthy mimetype then mimetype
      else if present (content_type response) then or_empty (content_type response)
      else "application/octet-stream"
    else mimetype in
  let filename :=
    if fetch && negb (JS.truthy filename) then
      match pathname with
      | Some path => List.last (split "/" path) ""
      | None => filename
      end
    else filename in
  let base64Data :=
    if JS.truthy base64Data then
      match after_data_url_prefix base64Data with
      | Some rest => rest
      | None => base64Data
      end
    else base64Data in
  if negb (JS.truthy mimetype) then thrown w fetched None mimetype_required
  else
  let sizeBytes := byteLength base64Data in
  if (MAX <? sizeBytes)%Z then thrown w fetched None (too_large sizeBytes)
  else
  let filename := if JS.truthy filename then filename else deriveDefaultFilename mimetype in
  let msgMedia :=
    {| mm_mimetype := mimetype; mm_data := base64Data; mm_filename := filename |} in
  let fc := Normalizer.getFormattedNumber number (numberFormatCache w) in
  let formattedNumber := fst fc in
  let w := set_numberFormatCache (snd fc) w in
  let isAudio := JS.startsWith mimetype "audio/" in
  let sendOptions :=
    if isAudio && sendAudioAsVoice options then
      {| so_caption := caption; so_sendAudioAsVoice := true;
         so_sendMediaAsDocument := false |}
    else if sendMediaAsDocument options then
      {| so_caption := caption; so_sendAudioAsVoice := false;
         so_sendMediaAsDocument := true |}
    else
      {| so_caption := caption; so_sendAudioAsVoice := false;
         so_sendMediaAsDocument := false |} in
  let call :=
    {| ms_accountId := accountId; ms_formattedNumber := formattedNumber;
       ms_media := msgMedia; ms_options := sendOptions |} in
  match outcome with
  | inl e => thrown w fetched (Some call) e
  | inr sentMessage =>
      {| world := w; fetched := fetched; sent := Some call;
         logged :=
           Some {| ml_account_id := accountId; ml_message_id := sent_id sentMessage;
                   ml_sender := sent_from sentMessage; ml_recipient := sent_to sentMessage;
                   ml_message := caption; ml_mimetype := mimetype;
                   ml_filename := filename;
                   ml_source := if present (url media) then "url" else "base64";
                   ml_timestamp := sent_timestamp sentMessage |};
         result := inr {| success := true; messageId := sent_id sentMessage;
                          result_timestamp := sent_timestamp sentMessage |} |}
  end
  end
  end
  end.

End Buffers.

End Media.

(* ================================================================== *)
(** * Part II: properties *)
(* ================================================================== *)

(** ** PhoneNumberNormalizer *)
Section NormalizerFacts.
Import JS Normalizer.

Example format_short_number : formatPhoneNumber "12345" = "9112345@c.us".
Proof. reflexivity. Qed.

Example format_leading_zero : formatPhoneNumber "09876543210" = "9876543210@c.us".
Proof. reflexivity. Qed.

Lemma all_digits_remove_non_digits s : all_digits (remove_non_digits s) = true.
Proof.
  induction s as [|c r IH]; simpl; [reflexivity|].
  destruct (is_digit c) eqn:Hc; simpl; [rewrite Hc|]; exact IH.
Qed.

Lemma remove_non_digits_fixed s : all_digits s = true -> remove_non_digits s = s.
Proof.
  induction s as [|c r IH]; simpl; [reflexivity|].
  intros [Hc Hr]%andb_prop. rewrite Hc, IH; auto.
Qed.

Lemma remove_non_digits_app a b :
  remove_non_digits (a +:+ b) = remove_non_digits a +:+ remove_non_digits b.
Proof.
  induction a as [|c r IH]; simpl; [reflexivity|].
  destruct (is_digit c); simpl; now rewrite IH.
Qed.

Lemma all_digits_app a b : all_digits (a +:+ b) = all_digits a && all_digits b.
Proof.
  induction a as [|c r IH]; simpl; [reflexivity|].
  now rewrite IH, andb_assoc.
Qed.

Lemma all_digits_remove_leading_zeros s :
  all_digits s = true -> all_digits (remove_leading_zeros s) = true.
Proof.
  induction s as [|c r IH]; simpl; [reflexivity|].
  intros H. destruct (Ascii.eqb c "0").
  - apply IH. now apply andb_prop in H.
  - exact H.
Qed.

Lemma remove_leading_zeros_idem s :
  remove_leading_zeros (remove_leading_zeros s) = remove_leading_zeros s.
Proof.
  induction s as [|c r IH]; simpl; [reflexivity|].
  destruct (Ascii.eqb c "0") eqn:Hc; [exact IH|].
  simpl. now rewrite Hc.
Qed.

Lemma length_app_string a b :
  String.length (a +:+ b) = String.length a + String.length b.
Proof. induction a as [|c r IH]; simpl; [reflexivity|]. now rewrite IH. Qed.

(** The digits of a JID are digits, and carry no leading zero. *)
Lemma all_digits_cleaned n : all_digits (cleaned n) = true.
Proof.
  unfold cleaned. apply all_digits_remove_leading_zeros.
  destruct (negb _); [|apply all_digits_remove_non_digits].
  rewrite all_digits_app, all_digits_remove_non_digits. reflexivity.
Qed.

Lemma remove_leading_zeros_cleaned n :
  remove_leading_zeros (cleaned n) = cleaned n.
Proof. unfold cleaned. apply remove_leading_zeros_idem. Qed.

(** The first step of a second pass gives back the digits of the JID. *)
Lemma remove_non_digits_format n :
  remove_non_digits (formatPhoneNumber n) = cleaned n.
Proof.
  unfold formatPhoneNumber. rewrite remove_non_digits_app.
  rewrite remove_non_digits_fixed by apply all_digits_cleaned.
  change (remove_non_digits "@c.us") with "".
  generalize (cleaned n) as d.
  induction d as [|c r IH]; [reflexivity|].
  change (String c (r +:+ "") = String c r). now rewrite IH.
Qed.

(** What a second pass computes, in both cases of the length test. *)
Lemma cleaned_format n :
  cleaned (formatPhoneNumber n) =
  if (10 <=? String.length (cleaned n))%nat then cleaned n
  else "91" +:+ cleaned n.
Proof.
  unfold cleaned at 1. rewrite remove_non_digits_format.
  unfold test_ten_or_more_digits. rewrite all_digits_cleaned, andb_true_l.
  destruct (10 <=? String.length (cleaned n))%nat; cbn [negb].
  - apply remove_leading_zeros_cleaned.
  - reflexivity.
Qed.

(** C5 (code): the ten-digit local number passes the [\d{10,}] test, so no
    country code is put in front of it, and its JID is not the JID of the
    same number written with +91. *)
Theorem formatPhoneNumber_local_vs_international :
  formatPhoneNumber "9876543210" = "9876543210@c.us" /\
  formatPhoneNumber "+919876543210" = "919876543210@c.us" /\
  formatPhoneNumber "9876543210" <> formatPhoneNumber "+919876543210".
Proof. repeat split. discriminate. Qed.

(** C6, as stated, fails: a number of fewer than ten digits gets the
    country code again on the second pass. *)
Lemma formatPhoneNumber_not_idempotent :
  formatPhoneNumber (formatPhoneNumber "12345") <> formatPhoneNumber "12345".
Proof. discriminate. Qed.

(** C6 (amended): normalizing is idempotent on every input whose
    normalized digit string has ten digits or more. *)
Theorem formatPhoneNumber_idempotent (n : string) :
  10 <= String.length (cleaned n) ->
  formatPhoneNumber (formatPhoneNumber n) = formatPhoneNumber n.
Proof.
  intros H. unfold formatPhoneNumber at 1 3. rewrite cleaned_format.
  apply Nat.leb_le in H. now rewrite H.
Qed.

Lemma formatPhoneNumber_idempotent_witness :
  10 <= String.length (cleaned "+91 98765-43210") /\
  formatPhoneNumber (formatPhoneNumber "+91 98765-43210") =
  formatPhoneNumber "+91 98765-43210".
Proof.
  split; [vm_compute; lia|].
  apply (formatPhoneNumber_idempotent "+91 98765-43210"). vm_compute; lia.
Defined.

(** The bound is exact: below ten digits the second pass differs. *)
Lemma formatPhoneNumber_short_not_fixed (n : string) :
  String.length (cleaned n) < 10 ->
  formatPhoneNumber (formatPhoneNumber n) <> formatPhoneNumber n.
Proof.
  intros H E. unfold formatPhoneNumber at 1 3 in E. rewrite cleaned_format in E.
  apply Nat.leb_gt in H. rewrite H in E.
  apply (f_equal String.length) in E. simpl in E.
  rewrite !length_app_string in E. lia.
Qed.

Lemma Map_get_sound m k v : cache_sound m -> Map_get k m = Some v -> v = formatPhoneNumber k.
Proof.
  induction 1 as [|[k' v'] r Hh _ IH]; simpl; [discriminate|].
  destruct (String.eqb k' k) eqn:E.
  - apply String.eqb_eq in E. simpl in Hh. congruence.
  - exact IH.
Qed.

Lemma Map_set_sound m k : cache_sound m -> cache_sound (Map_set k (formatPhoneNumber k) m).
Proof.
  induction 1 as [|[k' v'] r Hh Hr IH]; simpl.
  - repeat constructor.
  - destruct (String.eqb k' k) eqn:E.
    + apply String.eqb_eq in E. subst. constructor; [reflexivity|exact Hr].
    + constructor; assumption.
Qed.

Lemma Map_delete_sound m k : cache_sound m -> cache_sound (Map_delete k m).
Proof.
  unfold cache_sound, Map_delete. rewrite !List.Forall_forall.
  intros H e He. apply H. apply filter_In in He. tauto.
Qed.

Lemma getFormattedNumber_sound number c :
  opt_cache_sound c ->
  fst (getFormattedNumber number c) = formatPhoneNumber number /\
  opt_cache_sound (snd (getFormattedNumber number c)).
Proof.
  intros Hc. unfold getFormattedNumber.
  set (cache := match c with None => [] | Some m => m end).
  assert (Hs : cache_sound cache) by (destruct c; [exact Hc|constructor]).
  destruct (Map_get number cache) as [v|] eqn:G; simpl.
  - split; [eapply Map_get_sound; eauto|exact Hs].
  - split; [reflexivity|]. apply Map_set_sound.
    destruct (1000 <? length cache)%nat; [|exact Hs].
    destruct (Map_first_key cache); [apply Map_delete_sound|]; exact Hs.
Qed.

Lemma cache_after_sound calls : opt_cache_sound (cache_after calls).
Proof.
  unfold cache_after.
  assert (G : forall c, opt_cache_sound c ->
    opt_cache_sound (fold_left (fun c n => snd (getFormattedNumber n c)) calls c)).
  { induction calls as [|n r IH]; intros c Hc; simpl; [exact Hc|].
    apply IH. now apply getFormattedNumber_sound. }
  apply G. exact I.
Qed.

(** C10: whatever calls came before, the memoized normalizer returns the
    value of the pure one. *)
Theorem getFormattedNumber_refines_formatPhoneNumber
  (calls : list string) (number : string) :
  fst (getFormattedNumber number (cache_after calls)) = formatPhoneNumber number.
Proof. apply getFormattedNumber_sound, cache_after_sound. Qed.

End NormalizerFacts.

(** ** The outbound queue ([sendMessage]) *)
Section SendFacts.
Import Manager.

Lemma findIndex_Some p (queue : list QueueItem) index :
  findIndex p queue = Some index -> index < length queue.
Proof.
  revert index. induction queue as [|item rest IH]; simpl; [discriminate|].
  intros index. destruct (p item).
  - intros [= <-]. lia.
  - destruct (findIndex p rest) as [j|]; simpl; [|discriminate].
    intros [= <-]. specialize (IH j eq_refl). lia.
Qed.

Lemma same_item_refl item : same_item item item = true.
Proof.
  unfold same_item. rewrite !String.eqb_refl, Z.eqb_refl. reflexivity.
Qed.

Lemma findIndex_last p (queue : list QueueItem) item :
  p item = true -> is_Some (findIndex p (queue ++ [item])).
Proof.
  intros Hp. induction queue as [|x rest IH]; simpl.
  - rewrite Hp. eauto.
  - destruct (p x); [eauto|]. destruct IH as [j ->]. simpl. eauto.
Qed.

Lemma length_delete_found p (queue : list QueueItem) index :
  findIndex p queue = Some index ->
  length (delete index queue) = length queue - 1.
Proof.
  intros H. apply findIndex_Some in H. apply length_delete.
  now apply lookup_lt_is_Some_2.
Qed.

(** An admissible call pushes one item and calls the transport client. *)
Lemma sendMessage_start_admits accountId number message now w :
  admissible accountId w ->
  exists w' queueItem,
    sendMessage_start accountId number message now w = (w', inr queueItem) /\
    queue_of accountId w' = queue_of accountId w ++ [queueItem] /\
    transport w' =
      transport w ++ [Send accountId (item_number queueItem) message] /\
    scheduled_logs w' = scheduled_logs w.
Proof.
  intros (Hlen & (client & Hc & Hp) & Hs).
  unfold sendMessage_start.
  set (queues0 := match messageQueues w with Some q => q | None => ∅ end).
  set (queues := match queues0 !! accountId with
                 | Some _ => queues0 | None => <[accountId := []]> queues0 end).
  assert (Hq : default [] (queues !! accountId) = queue_of accountId w).
  { unfold queues, queue_of, queues0.
    destruct (messageQueues w) as [q|]; simpl.
    - destruct (q !! accountId) eqn:E; [now rewrite E|].
      now rewrite lookup_insert_eq.
    - rewrite lookup_empty. now rewrite lookup_insert_eq. }
  rewrite Hq. cbn [clients set_messageQueues accountStatus].
  apply Nat.ltb_ge in Hlen. rewrite Hlen, Hc, Hs, Hp. cbn [status_not_ready String.eqb].
  simpl negb. cbv iota.
  eexists _, _. split; [reflexivity|].
  unfold queue_of. cbn. rewrite lookup_insert_eq. cbn. auto.
Qed.

Lemma remove_from_queue_logs accountId queueItem w :
  scheduled_logs (remove_from_queue accountId queueItem w) = scheduled_logs w.
Proof.
  unfold remove_from_queue.
  destruct (messageQueues w) as [queues|]; [|reflexivity].
  destruct (queues !! accountId) as [queue|]; [|reflexivity].
  destruct (findIndex _ queue); reflexivity.
Qed.

(** X5: when the transport client answers with a message, the call
    returns the success result with the id and the time of that message,
    the item is taken out again, so that the depth is what it was before
    the call, and one outgoing success record is logged. *)
Lemma sendMessage_success_restores_depth accountId number message now result w :
  admissible accountId w ->
  let r := sendMessage accountId number message now (inr result) w in
  snd r = inr {| success := true; messageId := sent_id result;
                 result_timestamp := sent_timestamp result |} /\
  length (queue_of accountId (fst r)) = length (queue_of accountId w) /\
  scheduled_logs (fst r) = scheduled_logs w ++ [outgoing_success accountId message result].
Proof.
  intros Ha. cbv zeta.
  destruct (sendMessage_start_admits accountId number message now w Ha)
    as (w1 & queueItem & Hs & Hq & _ & Hlog).
  unfold sendMessage. rewrite Hs. cbn [sendMessage_finish fst snd].
  split; [reflexivity|]. split.
  - change (queue_of accountId (schedule_log ?l ?x)) with (queue_of accountId x).
    unfold remove_from_queue.
    assert (Hq' := Hq). unfold queue_of at 1 in Hq'.
    destruct (messageQueues w1) as [queues|] eqn:Hm.
    2: { symmetry in Hq'. now apply app_eq_nil in Hq' as [_ ?]. }
    destruct (queues !! accountId) as [queue|] eqn:Hl; cbn [from_option id] in Hq'.
    2: { symmetry in Hq'. now apply app_eq_nil in Hq' as [_ ?]. }
    subst queue.
    destruct (findIndex_last (same_item queueItem) (queue_of accountId w) queueItem
                (same_item_refl _)) as [index Hi].
    rewrite Hi. unfold queue_of at 1. cbn [messageQueues set_messageQueues].
    rewrite lookup_insert_eq. cbn [from_option id].
    rewrite (length_delete_found _ _ _ Hi), length_app. simpl. lia.
  - cbn [scheduled_logs schedule_log]. now rewrite remove_from_queue_logs, Hlog.
Qed.

(** When the transport client answers with an error, nothing is taken out
    of the queue: the item stays, and the depth has grown by one. *)
Lemma sendMessage_failure_keeps_item accountId number message now e w :
  admissible accountId w ->
  exists w' queueItem,
    sendMessage accountId number message now (inl e) w = (w', inl e) /\
    queue_of accountId w' = queue_of accountId w ++ [queueItem] /\
    length (queue_of accountId w') = S (length (queue_of accountId w)).
Proof.
  intros Ha.
  destruct (sendMessage_start_admits accountId number message now w Ha)
    as (w1 & queueItem & Hs & Hq & _ & _).
  unfold sendMessage. rewrite Hs. cbn [sendMessage_finish].
  eexists _, queueItem. split; [reflexivity|].
  change (queue_of accountId (schedule_log _ w1)) with (queue_of accountId w1).
  rewrite Hq, length_app. simpl. split; [reflexivity|lia].
Qed.

(** C1 (code): on a ready account with an empty queue, a send that the
    transport client rejects leaves its item in the queue: the depth is 1
    after the call, and 0 after a send that succeeds. *)
Theorem sendMessage_failed_send_stays_queued :
  let w := Scenario.ready_world 0 in
  let failed := sendMessage "acc" "+919876543210" "hello" 1000 (inl "Evaluation failed") w in
  let sent := sendMessage "acc" "+919876543210" "hello" 1000 (inr Scenario.delivered) w in
  length (queue_of "acc" w) = 0 /\
  snd failed = inl "Evaluation failed" /\
  queue_of "acc" (fst failed) =
    [{| item_number := "919876543210@c.us"; item_message := "hello";
        item_timestamp := 1000 |}] /\
  length (queue_of "acc" (fst failed)) = 1 /\
  length (queue_of "acc" (fst sent)) = 0.
Proof. vm_compute. repeat split. Qed.

(** C4, as stated, fails: at a depth of exactly 20 the send is admitted:
    the item is queued as the 21st, the transport client is called, and the
    call returns its answer. *)
Lemma sendMessage_admits_at_depth_20 :
  let w := Scenario.ready_world 20 in
  let started := sendMessage_start "acc" "+919876543210" "hello" 1000 w in
  let r := sendMessage "acc" "+919876543210" "hello" 1000 (inr Scenario.delivered) w in
  length (queue_of "acc" w) = 20 /\
  length (queue_of "acc" (fst started)) = 21 /\
  snd r = inr {| success := true; messageId := sent_id Scenario.delivered;
                 result_timestamp := sent_timestamp Scenario.delivered |} /\
  snd r <> inl queue_full /\
  transport (fst r) = [Send "acc" "919876543210@c.us" "hello"].
Proof. vm_compute. repeat split. discriminate. Qed.

(** C4 (amended): once the depth exceeds 20, [sendMessage] fails with the
    queue-full error; the transport client is not called, nothing is
    queued and nothing is logged. *)
Theorem sendMessage_queue_full accountId number message now outcome w :
  20 < length (queue_of accountId w) ->
  snd (sendMessage accountId number message now outcome w) = inl queue_full /\
  transport (fst (sendMessage accountId number message now outcome w)) = transport w /\
  queue_of accountId (fst (sendMessage accountId number message now outcome w)) =
    queue_of accountId w /\
  scheduled_logs (fst (sendMessage accountId number message now outcome w)) =
    scheduled_logs w.
Proof.
  intros Hlen. unfold sendMessage, sendMessage_start, queue_of in *.
  destruct (messageQueues w) as [queues|] eqn:Hm; [|simpl in Hlen; lia].
  destruct (queues !! accountId) as [queue|] eqn:Hl; [|simpl in Hlen; lia].
  cbn [from_option id] in Hlen. rewrite Hl. cbn [from_option id].
  apply Nat.ltb_lt in Hlen. rewrite Hlen. cbn. rewrite Hl. auto.
Qed.

Lemma sendMessage_queue_full_witness :
  20 < length (queue_of "acc" (Scenario.ready_world 21)) /\
  snd (sendMessage "acc" "+919876543210" "hello" 1000 (inr Scenario.delivered)
         (Scenario.ready_world 21)) = inl queue_full.
Proof.
  split; [vm_compute; lia|].
  apply (sendMessage_queue_full "acc" "+919876543210" "hello" 1000
           (inr Scenario.delivered) (Scenario.ready_world 21)).
  vm_compute; lia.
Defined.

End SendFacts.

(** ** The lifecycle of an account *)
Section LifecycleFacts.
Import Manager.

Lemma sendMessage_start_accountStatus a n m t w :
  accountStatus (fst (sendMessage_start a n m t w)) = accountStatus w.
Proof.
  unfold sendMessage_start. cbv zeta.
  destruct (20 <? _)%nat; [reflexivity|].
  destruct (clients _ !! a) as [client|]; [|reflexivity].
  destruct (status_not_ready _); [reflexivity|].
  destruct (page_unusable client); reflexivity.
Qed.

Lemma sendMessage_accountStatus a n m t o w :
  accountStatus (fst (sendMessage a n m t o w)) = accountStatus w.
Proof.
  unfold sendMessage.
  pose proof (sendMessage_start_accountStatus a n m t w) as H.
  destruct (sendMessage_start a n m t w) as [w1 [e|item]]; simpl in *; [exact H|].
  rewrite <- H. unfold sendMessage_finish, remove_from_queue.
  destruct o as [e|result]; [reflexivity|]. cbn [accountStatus schedule_log].
  destruct (messageQueues w1) as [queues|]; [|reflexivity].
  destruct (queues !! a) as [queue|]; [|reflexivity].
  destruct (findIndex _ queue); reflexivity.
Qed.

(** Every event leaves the status map as it is, removes the entry of its
    account, or overwrites it with one of the statuses it writes; the
    status before plays no part. *)
Lemma step_accountStatus ev w :
  accountStatus (step w ev) = accountStatus w \/
  accountStatus (step w ev) = delete (account_of ev) (accountStatus w) \/
  exists st, In st (writes ev) /\
    accountStatus (step w ev) = <[account_of ev := st]> (accountStatus w).
Proof.
  destruct ev; cbn [step account_of writes];
    try (rewrite sendMessage_accountStatus; now left).
  - unfold createAccount. destruct fs, r; simpl; rewrite ?insert_insert_eq;
      right; right; eauto 6.
  - unfold on_initialize_error. simpl. right; right; eauto.
  - unfold on_qr. destruct qrDataUrl, r; simpl; eauto 6.
  - unfold on_ready. destruct r; simpl; eauto 6.
  - now left.
  - unfold on_auth_failure, on_status_event. destruct r; simpl; eauto 6.
  - unfold on_disconnected, on_status_event. destruct r; simpl; eauto 6.
  - unfold reconnectAccount_start, reconnect_failed. destruct fs, r; simpl; eauto 8.
  - unfold reconnectAccount_finish, reconnect_failed. destruct init, r; simpl; eauto 8.
  - unfold deleteAccount. destruct (clients w !! accountId), destroy, r; simpl; eauto.
  - destruct (clients w !! accountId); simpl; eauto.
Qed.

Lemma writes_written ev st : In st (writes ev) -> In st written_statuses.
Proof. destruct ev; simpl; intuition (subst; simpl; tauto). Qed.

Lemma run_snoc events ev w : run (events ++ [ev]) w = step (run events w) ev.
Proof. unfold run. now rewrite fold_left_app. Qed.

Lemma run_statuses events accountId :
  status_among written_statuses (getAccountStatus accountId (run events initial)).
Proof.
  unfold getAccountStatus.
  induction events as [|ev events IH] using rev_ind; [exact I|].
  rewrite run_snoc.
  destruct (step_accountStatus ev (run events initial)) as [-> | [-> | (st & Hst & ->)]].
  - exact IH.
  - destruct (decide (account_of ev = accountId)) as [->|Hne].
    + now rewrite lookup_delete_eq.
    + now rewrite lookup_delete_ne.
  - destruct (decide (account_of ev = accountId)) as [->|Hne].
    + rewrite lookup_insert_eq. simpl. eapply writes_written; eauto.
    + now rewrite lookup_insert_ne.
Qed.

Lemma sendMessage_start_database a n m t w :
  database (fst (sendMessage_start a n m t w)) = database w.
Proof.
  unfold sendMessage_start. cbv zeta.
  destruct (20 <? _)%nat; [reflexivity|].
  destruct (clients _ !! a) as [client|]; [|reflexivity].
  destruct (status_not_ready _); [reflexivity|].
  destruct (page_unusable client); reflexivity.
Qed.

Lemma sendMessage_database a n m t o w :
  database (fst (sendMessage a n m t o w)) = database w.
Proof.
  unfold sendMessage.
  pose proof (sendMessage_start_database a n m t w) as H.
  destruct (sendMessage_start a n m t w) as [w1 [e|item]]; simpl in *; [exact H|].
  rewrite <- H. unfold sendMessage_finish, remove_from_queue.
  destruct o as [e|result]; [reflexivity|]. cbn [database schedule_log].
  destruct (messageQueues w1) as [queues|]; [|reflexivity].
  destruct (queues !! a) as [queue|]; [|reflexivity].
  destruct (findIndex _ queue); reflexivity.
Qed.

Lemma rows_among_insert l a row d :
  In (Db.row_status row) l -> rows_among l d ->
  rows_among l (Db.with_accounts (insert a row) d).
Proof.
  intros Hr Hd a' row'. cbn. destruct (decide (a = a')) as [<-|Hne].
  - rewrite lookup_insert_eq. now intros [= <-].
  - rewrite lookup_insert_ne by exact Hne. apply Hd.
Qed.

Lemma rows_among_alter l a f d :
  (forall row, In (Db.row_status (f row)) l) -> rows_among l d ->
  rows_among l (Db.with_accounts (alter f a) d).
Proof.
  intros Hf Hd a' row'. cbn. destruct (decide (a = a')) as [<-|Hne].
  - rewrite lookup_alter_eq. destruct (Db.whatsapp_accounts d !! a); [|discriminate].
    intros [= <-]. apply Hf.
  - rewrite lookup_alter_ne by exact Hne. apply Hd.
Qed.

Lemma rows_among_delete l a d :
  rows_among l d -> rows_among l (Db.with_accounts (delete a) d).
Proof.
  intros Hd a' row'. cbn. destruct (decide (a = a')) as [<-|Hne].
  - now rewrite lookup_delete_eq.
  - rewrite lookup_delete_ne by exact Hne. apply Hd.
Qed.

Lemma updateAccount_rows a st e r d :
  In st written_statuses -> rows_among written_statuses d ->
  rows_among written_statuses (fst (Db.updateAccount a (set_status st e) r d)).
Proof.
  intros Hst Hd. destruct r; cbn [Db.updateAccount fst]; [exact Hd|].
  apply rows_among_alter; [intros row; exact Hst|exact Hd].
Qed.

(** The events keep the stored statuses among the written ones. *)
Lemma step_rows ev w :
  rows_among written_statuses (database w) ->
  rows_among written_statuses (database (step w ev)).
Proof.
  intros H. destruct ev; cbn [step];
    try (rewrite sendMessage_database; exact H).
  - unfold createAccount. destruct fs, r; cbn; try exact H.
    apply rows_among_insert; [cbn; tauto|exact H].
  - unfold on_initialize_error. cbn [database set_database].
    apply updateAccount_rows; [cbn; tauto|exact H].
  - unfold on_qr. destruct qrDataUrl, r; cbn; try exact H.
    apply rows_among_alter; [intros row; cbn; tauto|exact H].
  - unfold on_ready. destruct r; cbn; try exact H.
    apply rows_among_alter; [intros row; cbn; tauto|exact H].
  - exact H.
  - unfold on_auth_failure, on_status_event. destruct r; cbn; try exact H.
    apply rows_among_alter; [intros row; cbn; tauto|exact H].
  - unfold on_disconnected, on_status_event. destruct r; cbn; try exact H.
    apply rows_among_alter; [intros row; cbn; tauto|exact H].
  - unfold reconnectAccount_start, reconnect_failed. destruct fs, r; cbn; try exact H.
    apply rows_among_alter; [intros row; cbn; tauto|exact H].
  - unfold reconnectAccount_finish, reconnect_failed. destruct init, r; cbn; try exact H.
    apply rows_among_alter; [intros row; cbn; tauto|exact H].
  - unfold deleteAccount. destruct (clients w !! accountId), destroy, r; cbn; try exact H;
      apply rows_among_delete; exact H.
  - destruct (clients w !! accountId); exact H.
Qed.

Lemma run_rows events : rows_among written_statuses (database (run events initial)).
Proof.
  induction events as [|ev events IH] using rev_ind.
  - intros a row. cbn. now rewrite lookup_empty.
  - rewrite run_snoc. apply step_rows, IH.
Qed.

(** Once the database has taken the update of [ready], the QR code of the
    account is no longer served. *)
Lemma on_ready_clears_qr accountId user w :
  let w' := on_ready accountId user Db.Served w in
  getAccountStatus accountId w' = Some "ready" /\ getQRCode accountId w' = None.
Proof.
  unfold on_ready, getAccountStatus, getQRCode. cbn.
  now rewrite lookup_insert_eq, lookup_delete_eq.
Qed.

(** C7, as stated, fails: when [client.initialize()] fails after
    [createAccount], the status of the account is [failed], which is none
    of the five statuses. *)
Lemma status_failed_after_initialize_error :
  let events :=
    [CreateAccount "acc" "Sales" "" (inr tt) Db.Served;
     InitializeError "acc" "Failed to launch the browser process" Db.Served] in
  getAccountStatus "acc" (run events initial) = Some "failed" /\
  ~ In "failed" spec_statuses.
Proof.
  split; [vm_compute; reflexivity|].
  simpl. intros H. repeat destruct H as [H|H]; try discriminate H; exact H.
Qed.

(** A restored session goes from [initializing] to [ready] with no QR
    code in between, an edge the graph of the specification does not have:
    the handlers never look at the status they overwrite. *)
Lemma ready_straight_from_initializing :
  let w := run [ReconnectStart "acc" (inr tt) Db.Served] initial in
  getAccountStatus "acc" w = Some "initializing" /\
  getAccountStatus "acc" (step w (Ready "acc" "919876543210" Db.Served)) = Some "ready" /\
  spec_edge "initializing" "ready" = false.
Proof. vm_compute. repeat split. Qed.

(** What every event does to the status map: nothing, or for its own
    account the effect its answers determine. *)
Lemma step_status_effect (w : World) (ev : Event) :
  accountStatus (step w ev) =
  match status_effect w ev with
  | Unchanged => accountStatus w
  | Removed => delete (account_of ev) (accountStatus w)
  | Written status => <[account_of ev := status]> (accountStatus w)
  end.
Proof.
  destruct ev; cbn [step account_of status_effect].
  - unfold createAccount. destruct fs as [e|[]], r; cbn;
      rewrite ?insert_insert_eq; reflexivity.
  - reflexivity.
  - unfold on_qr. destruct qrDataUrl, r; reflexivity.
  - unfold on_ready. destruct r; reflexivity.
  - reflexivity.
  - unfold on_auth_failure. destruct r; reflexivity.
  - unfold on_disconnected, on_status_event. destruct r; reflexivity.
  - unfold reconnectAccount_start, reconnect_failed. destruct fs, r; reflexivity.
  - unfold reconnectAccount_finish, reconnect_failed. destruct init, r; reflexivity.
  - unfold deleteAccount. destruct (clients w !! accountId), destroy, r; reflexivity.
  - apply sendMessage_accountStatus.
  - destruct (clients w !! accountId); reflexivity.
Qed.

(** C7 (amended): after every history the status of an account, in the
    manager and in its stored row, is absent or one of [initializing],
    [qr_ready], [ready], [auth_failed], [disconnected], [failed]; and every
    further event leaves the status of the other accounts alone and does
    to the status of its own account what its answers determine, whatever
    that status was before: it leaves it, removes it, or writes the one
    status [status_effect] names. *)
Theorem lifecycle_statuses (events : list Event) (ev : Event) (accountId : string) :
  let w := run events initial in
  let before := getAccountStatus accountId w in
  let after := getAccountStatus accountId (step w ev) in
  status_among written_statuses before /\
  rows_among written_statuses (database w) /\
  status_among written_statuses after /\
  (after = before \/
   accountId = account_of ev /\ (after = None \/ status_among (writes ev) after /\ after <> None)) /\
  after =
    (if String.eqb accountId (account_of ev)
     then status_after (status_effect w ev) before
     else before).
Proof.
  cbv zeta. split; [apply run_statuses|]. split; [apply run_rows|].
  split; [rewrite <- run_snoc; apply run_statuses|].
  unfold getAccountStatus. split.
  - destruct (step_accountStatus ev (run events initial)) as [-> | [-> | (st & Hst & ->)]].
    + now left.
    + destruct (decide (account_of ev = accountId)) as [<-|Hne].
      * right. rewrite lookup_delete_eq. auto.
      * left. now rewrite lookup_delete_ne.
    + destruct (decide (account_of ev = accountId)) as [<-|Hne].
      * right. rewrite lookup_insert_eq. simpl. split; [reflexivity|]. right.
        split; [exact Hst|discriminate].
      * left. now rewrite lookup_insert_ne.
  - rewrite step_status_effect.
    destruct (String.eqb accountId (account_of ev)) eqn:E.
    + apply String.eqb_eq in E. subst accountId.
      destruct (status_effect (run events initial) ev); cbn [status_after];
        [reflexivity|apply lookup_delete_eq|apply lookup_insert_eq].
    + apply String.eqb_neq in E.
      destruct (status_effect (run events initial) ev);
        [reflexivity|apply lookup_delete_ne; congruence|apply lookup_insert_ne; congruence].
Qed.

(** The effect of every event is within what [writes] lists for it. *)
Lemma status_effect_writes (w : World) (ev : Event) (status : string) :
  status_effect w ev = Written status -> In status (writes ev).
Proof.
  destruct ev; cbn;
    repeat match goal with
    | |- context [match ?x with _ => _ end] => destruct x
    end; intros [= <-]; cbn; auto.
Qed.

End LifecycleFacts.

(** ** [deleteAccount] *)
Section DeleteFacts.
Import Manager.

(** When [client.destroy()] succeeds and the database serves the delete,
    the handle, the status, the QR code and the row are gone. *)
Lemma deleteAccount_removes accountId w :
  let r := deleteAccount accountId (inr tt) Db.Served w in
  snd r = inr true /\
  clients (fst r) !! accountId = None /\
  accountStatus (fst r) !! accountId = None /\
  qrCodes (fst r) !! accountId = None /\
  Db.whatsapp_accounts (database (fst r)) !! accountId = None.
Proof.
  unfold deleteAccount. destruct (clients w !! accountId) eqn:E; simpl;
    rewrite ?lookup_delete_eq; auto.
Qed.

(** C8, as stated, fails: with a client whose [destroy()] throws, the
    exception reaches the caller, and the handle, the status and the row
    of the account are all still there. *)
Lemma deleteAccount_rethrows_destroy_error :
  let w := Scenario.stored_world in
  let r := deleteAccount "acc" (inl "Protocol error: Target closed") Db.Served w in
  snd r = inl "Protocol error: Target closed" /\
  clients (fst r) !! "acc" = Some Scenario.open_client /\
  accountStatus (fst r) !! "acc" = Some "ready" /\
  is_Some (Db.whatsapp_accounts (database (fst r)) !! "acc").
Proof. vm_compute. repeat split. eauto. Qed.

(** C8 (amended): when the account has a client and its [destroy()]
    fails, the failure is logged and thrown on to the caller; the three
    maps of the manager and the database are left as they were. *)
Theorem deleteAccount_destroy_failure accountId e r w :
  is_Some (clients w !! accountId) ->
  let res := deleteAccount accountId (inl e) r w in
  snd res = inl e /\
  console (fst res) = console w ++ ["Error deleting account:"] /\
  transport (fst res) = transport w ++ [Destroy accountId] /\
  clients (fst res) = clients w /\
  qrCodes (fst res) = qrCodes w /\
  accountStatus (fst res) = accountStatus w /\
  database (fst res) = database w.
Proof.
  intros [client Hc]. unfold deleteAccount. rewrite Hc. simpl. auto 10.
Qed.

Lemma deleteAccount_destroy_failure_witness :
  is_Some (clients Scenario.stored_world !! "acc") /\
  snd (deleteAccount "acc" (inl "Protocol error: Target closed") Db.Served
         Scenario.stored_world) = inl "Protocol error: Target closed".
Proof.
  split; [vm_compute; eauto|].
  apply (deleteAccount_destroy_failure "acc" "Protocol error: Target closed"
           Db.Served Scenario.stored_world).
  vm_compute; eauto.
Defined.

End DeleteFacts.

(** ** The webhook fan-out ([sendToWebhooks]) *)
Section DispatchFacts.
Import Manager.
Variables (accountId : string) (messageData : MessageData).
Variable http : Request -> HttpOutcome.

Abbreviation record := (delivery_record accountId messageData http).
Abbreviation settle := (settle accountId messageData http).
Abbreviation record_of := (record_of accountId messageData http).
Abbreviation settling := (settling accountId messageData http).

Lemma deliver_logs webhook w :
  fst (deliver accountId messageData http webhook w) = schedule_log (record webhook) w.
Proof.
  unfold deliver, delivery_record.
  destruct (axios_post (http (request_for accountId messageData webhook))); reflexivity.
Qed.

(** A delivery never rejects its promise: a failed request is an
    attempt that resolves with [success: false]. *)
Lemma deliver_resolves webhook w :
  exists a, snd (deliver accountId messageData http webhook w) = inr a /\
    attempt_success a =
      match axios_post (http (request_for accountId messageData webhook)) with
      | inr _ => true | inl _ => false end.
Proof.
  unfold deliver.
  destruct (axios_post (http (request_for accountId messageData webhook))); eauto.
Qed.

Lemma record_of_insert (promises : list Promise) i webhook res :
  promises !! i = Some (webhook, None) ->
  omap record_of (<[i := (webhook, Some res)]> promises) ≡ₚ
  record webhook :: omap record_of promises.
Proof.
  revert i. induction promises as [|p rest IH]; intros [|i] H; try discriminate H.
  - injection H as ->. reflexivity.
  - cbn [lookup list_lookup] in H. cbn [insert list_insert omap list_omap].
    destruct (record_of p) as [l|].
    + rewrite (IH i H). apply perm_swap.
    + apply (IH i H).
Qed.

Lemma settle_settling w0 active st i :
  settling w0 active st -> settling w0 active (settle st i).
Proof.
  intros (Hm & logged & Hl & Hp). unfold Manager.settle.
  destruct (snd st !! i) as [[webhook [res|]]|] eqn:E; try (split; eauto; fail).
  split; cbn [fst snd].
  - rewrite <- Hm. apply list_eq. intros j.
    rewrite !list_lookup_fmap.
    destruct (decide (i = j)) as [<-|Hne].
    + rewrite list_lookup_insert_eq by (eapply lookup_lt_Some; eauto).
      now rewrite E.
    + now rewrite list_lookup_insert_ne.
  - exists (logged ++ [record webhook]). rewrite deliver_logs. cbn [scheduled_logs schedule_log].
    split; [rewrite Hl; now rewrite app_assoc|].
    rewrite record_of_insert by exact E.
    rewrite <- Hp. symmetry. apply Permutation_cons_append.
Qed.

Lemma fold_settling w0 active order st :
  settling w0 active st -> settling w0 active (fold_left settle order st).
Proof.
  revert st. induction order as [|i order IH]; intros st H; [exact H|].
  apply IH, settle_settling, H.
Qed.

Lemma all_settled_records (promises : list Promise) :
  forallb settled promises = true ->
  omap record_of promises = map record (fst <$> promises).
Proof.
  induction promises as [|[webhook [res|]] rest IH]; cbn; try discriminate; [reflexivity|].
  intros H. now rewrite (IH H).
Qed.

Lemma settle_length st i : length (snd (settle st i)) = length (snd st).
Proof.
  unfold Manager.settle. destruct (snd st !! i) as [[webhook [res|]]|]; try reflexivity.
  cbn [snd]. apply length_insert.
Qed.

Lemma settle_keeps st i j : settled_at (snd st) j -> settled_at (snd (settle st i)) j.
Proof.
  intros (p & Hp & Hs). unfold Manager.settle.
  destruct (snd st !! i) as [[webhook [res|]]|] eqn:E; try (exists p; auto; fail).
  cbn [snd]. destruct (decide (i = j)) as [<-|Hne].
  - rewrite E in Hp. injection Hp as <-. discriminate Hs.
  - exists p. now rewrite list_lookup_insert_ne.
Qed.

Lemma settle_settles st i : i < length (snd st) -> settled_at (snd (settle st i)) i.
Proof.
  intros Hi. unfold Manager.settle.
  destruct (lookup_lt_is_Some_2 _ _ Hi) as [[webhook [res|]] E]; rewrite E.
  - exists (webhook, Some res). auto.
  - cbn [snd]. eexists. rewrite list_lookup_insert_eq by exact Hi. split; reflexivity.
Qed.

Lemma fold_settles order st i :
  i < length (snd st) ->
  settled_at (snd st) i \/ In i order ->
  settled_at (snd (fold_left settle order st)) i.
Proof.
  revert st. induction order as [|j order IH]; intros st Hi H; cbn [fold_left].
  - destruct H as [H|[]]. exact H.
  - apply IH; [now rewrite settle_length|].
    destruct H as [H|[<-|H]].
    + left. now apply settle_keeps.
    + left. now apply settle_settles.
    + now right.
Qed.

Lemma fold_length order st : length (snd (fold_left settle order st)) = length (snd st).
Proof.
  revert st. induction order as [|j order IH]; intros st; [reflexivity|].
  cbn [fold_left]. now rewrite IH, settle_length.
Qed.

Lemma fold_all_settled order st :
  (forall i, i < length (snd st) -> In i order) ->
  forallb settled (snd (fold_left settle order st)) = true.
Proof.
  intros H. apply forallb_forall. intros p Hp.
  apply list_elem_of_In, list_elem_of_lookup in Hp as [i Hi].
  assert (Hlt : i < length (snd st)).
  { rewrite <- (fold_length order). eapply lookup_lt_Some; eauto. }
  destruct (fold_settles order st i Hlt (or_intror (H i Hlt))) as (q & Hq & Hs).
  congruence.
Qed.

Lemma pending_settling w (active : list Db.Webhook) :
  settling w active (w, map (fun webhook => (webhook, None)) active).
Proof.
  split; cbn [fst snd].
  - induction active as [|x l IH]; cbn; [reflexivity|]. f_equal. exact IH.
  - exists []. split; [now rewrite app_nil_r|].
    induction active as [|x l IH]; cbn; [reflexivity|exact IH].
Qed.

(** The record of a delivery is a failed one exactly when the request
    got no 2xx answer. *)
Lemma record_failed webhook :
  log_status (record webhook) = "failed" <->
  exists e, axios_post (http (request_for accountId messageData webhook)) = inl e.
Proof.
  unfold delivery_record, webhook_log. cbn [log_status].
  destruct (axios_post _) as [e|status]; split; eauto; try discriminate.
  intros [e' H]. discriminate H.
Qed.

(** What the record of a delivery says, by what the network did with
    the request: a success with the status for an answer in the 2xx range,
    a failure for any other answer, and a failure with the message of the
    error when there was no answer. *)
Lemma record_by_outcome webhook :
  match http (request_for accountId messageData webhook) with
  | Responded status =>
      if ((200 <=? status) && (status <? 300))%Z
      then log_status (record webhook) = "success" /\
           log_response_status (record webhook) = Some status
      else log_status (record webhook) = "failed"
  | NoResponse message =>
      log_status (record webhook) = "failed" /\
      log_error_message (record webhook) = Some message
  end.
Proof.
  unfold delivery_record, webhook_log, axios_post.
  destruct (http (request_for accountId messageData webhook)) as [status|message];
    [|split; reflexivity].
  destruct ((200 <=? status) && (status <? 300))%Z; [split|]; reflexivity.
Qed.

(** C9: a call of [sendToWebhooks] never throws; when it has returned,
    the log holds one record for every active webhook of the account, the
    failed deliveries among them, in the order in which the requests
    settled; it returns as soon as every request has settled, in whatever
    order and with whatever outcome; and the record of a webhook is a
    failed one when its request got no answer (an error of the
    connection, the timeout) or an answer outside the 2xx range, and a
    success otherwise. *)
Theorem sendToWebhooks_settles_all (now : Z) (r : Db.Reply) (order : list nat) (w : World) :
  let res := sendToWebhooks accountId messageData now r http order w in
  let active := active_webhooks accountId now r w in
  (forall e, snd res <> Some (inl e)) /\
  (snd res = Some (inr tt) ->
   exists logged, scheduled_logs (fst res) = scheduled_logs w ++ logged /\
     logged ≡ₚ map record active) /\
  ((forall i, i < length active -> In i order) -> snd res = Some (inr tt)) /\
  (forall webhook, In webhook active ->
     (log_status (record webhook) = "failed" <->
      exists e, axios_post (http (request_for accountId messageData webhook)) = inl e)) /\
  (forall webhook, In webhook active ->
     match http (request_for accountId messageData webhook) with
     | Responded status =>
         if ((200 <=? status) && (status <? 300))%Z
         then log_status (record webhook) = "success" /\
              log_response_status (record webhook) = Some status
         else log_status (record webhook) = "failed"
     | NoResponse message =>
         log_status (record webhook) = "failed" /\
         log_error_message (record webhook) = Some message
     end).
Proof.
  cbv zeta. unfold sendToWebhooks, active_webhooks.
  destruct (Db.getWebhooks accountId now r (database w)) as [d [e|webhooks]] eqn:G;
    cbn [fst snd try_catch].
  - split; [intros e0 H0; discriminate H0|].
    split; [intros _; exists []; cbn; now rewrite app_nil_r|].
    split; [reflexivity|]. split; intros webhook _; [apply record_failed|apply record_by_outcome].
  - destruct webhooks as [|x l]; cbn [length Nat.eqb].
    + split; [intros e0 H0; discriminate H0|].
      split; [intros _; exists []; cbn; now rewrite app_nil_r|].
      split; [reflexivity|]. split; intros webhook _; [apply record_failed|apply record_by_outcome].
    + set (active := List.filter Db.is_active (x :: l)).
      set (w1 := set_database d w).
      set (st := fold_left settle order (w1, map (fun webhook => (webhook, None)) active)).
      assert (Hst : settling w1 active st) by apply fold_settling, pending_settling.
      destruct (forallb settled (snd st)) eqn:Hall; cbn [fst snd].
      * split; [intros e0 H0; discriminate H0|].
        split; [|split; [reflexivity|split; intros webhook _; [apply record_failed|apply record_by_outcome]]].
        intros _. destruct Hst as (Hm & logged & Hl & Hp).
        exists logged. split; [exact Hl|].
        rewrite Hp, (all_settled_records _ Hall), Hm. reflexivity.
      * split; [intros e0 H0; discriminate H0|].
        split; [intros H0; discriminate H0|].
        split; [|split; intros webhook _; [apply record_failed|apply record_by_outcome]].
        intros Hcov. exfalso.
        assert (forallb settled (snd st) = true); [|congruence].
        unfold st. apply fold_all_settled. cbn [snd]. now rewrite length_map.
Qed.

End DispatchFacts.

(** Three webhooks of which one times out: three records, two of them
    successes, whatever the order in which the requests settle; and the call
    is still waiting while the slow request is out. *)
Example dispatch_three_webhooks :
  let run order :=
    Manager.sendToWebhooks "acc" Scenario.incoming 5000 Db.Served
      Scenario.slow_times_out order Scenario.hooked_world in
  map Manager.log_status (Manager.scheduled_logs (fst (run [2; 0; 1]))) =
    ["failed"; "success"; "success"] /\
  snd (run [2; 0; 1]) = Some (inr tt) /\
  map Manager.log_status (Manager.scheduled_logs (fst (run [0; 1]))) =
    ["success"; "success"] /\
  snd (run [0; 1]) = None.
Proof. vm_compute. repeat split. Qed.

(** ** The webhook-secret cache *)
Section SecretCacheFacts.
Import Server.

Lemma startsWith_app p x : JS.startsWith (p +:+ x) p = true.
Proof.
  induction p as [|c p IH]; [reflexivity|].
  change (JS.startsWith (String c (p +:+ x)) (String c p) = true).
  cbn [JS.startsWith]. now rewrite Ascii.eqb_refl, IH.
Qed.

(** The delete handler leaves no entry under a key of the account. *)
Lemma invalidate_clears accountId webhook_secret c :
  invalidate accountId c !! cacheKey accountId webhook_secret = None.
Proof.
  unfold invalidate. apply map_lookup_filter_None. right.
  intros v _. cbn [fst]. unfold cacheKey. rewrite startsWith_app. discriminate.
Qed.

Lemma delete_webhook_invalidates wid r_get prefetch r_delete s existing webhook_secret :
  Db.getWebhook wid r_get (db s) = inr (Some existing) ->
  snd (delete_webhook wid r_get prefetch r_delete s) = Ok ->
  webhookSecretCache (fst (delete_webhook wid r_get prefetch r_delete s))
    !! cacheKey (Db.account_id existing) webhook_secret = None.
Proof.
  unfold delete_webhook. intros ->.
  destruct (Db.deleteWebhook wid prefetch r_delete (db s)) as [d [e|b]];
    cbn [fst snd]; [discriminate|].
  intros _. apply invalidate_clears.
Qed.

(** An answer the cache has is given as it is: neither the clock nor the
    database is looked at. *)
Lemma validate_cached account_id number webhook_secret now r s validWebhook :
  JS.truthy account_id = true -> JS.truthy number = true ->
  JS.truthy webhook_secret = true ->
  webhookSecretCache s !! cacheKey account_id webhook_secret = Some validWebhook ->
  webhook_reply_validate account_id number webhook_secret now r s = (s, inr validWebhook).
Proof.
  intros Ha Hn Hs Hc. unfold webhook_reply_validate.
  rewrite Ha, Hn, Hs, Hc. reflexivity.
Qed.

(** Deleting a webhook: the secret that was cached as valid is refused
    by the next reply request. *)
Example secret_refused_after_delete :
  snd (serve 0
         [(1000%Z, Scenario.reply "s3cret" Db.Served);
          (2000%Z, DeleteWebhook "w1" Db.Served Db.Served Db.Deleted);
          (2001%Z, Scenario.reply "s3cret" Db.Served)]
         Scenario.server) = [Ok; Ok; Unauthorized].
Proof. vm_compute. reflexivity. Qed.

(** C2 (code): the toggle and the create handlers leave the cache as it
    is.  A secret cached as valid is still accepted after its webhook has
    been switched off, and a secret cached as invalid is still refused after
    a webhook with that secret has been created; only the hourly timer
    ends either. *)
Theorem secret_cache_survives_toggle_and_create :
  let key := cacheKey "acc" "s3cret" in
  let toggled :=
    serve 0
      [(1000%Z, Scenario.reply "s3cret" Db.Served);
       (2000%Z, ToggleWebhook "w1" Db.Served Db.Served);
       (2001%Z, Scenario.reply "s3cret" Db.Served)]
      Scenario.server in
  let created :=
    serve 0
      [(1000%Z, Scenario.reply "fresh" Db.Served);
       (2000%Z, PostWebhook "acc" "https://new.example.com/in" (Some "fresh") None "w5" Db.Served);
       (2001%Z, Scenario.reply "fresh" Db.Served)]
      Scenario.server in
  snd toggled = [Ok; Ok; Ok] /\
  webhookSecretCache (fst toggled) !! key = Some (Some Scenario.crm_hook) /\
  map Db.is_active
    (List.filter (fun w => String.eqb (Db.id w) "w1") (Db.webhooks (db (fst toggled))))
    = [false] /\
  snd created = [Unauthorized; Ok; Unauthorized] /\
  webhookSecretCache (fst created) !! cacheKey "acc" "fresh" = Some None.
Proof. vm_compute. repeat split. Qed.

(** C3 (code): the time given to [set] is dropped, so an entry has no
    age.  The answer cached at 1000 ms decides the request at 301001 ms,
    more than five minutes later, although the database cannot be reached
    by then; it is the hourly timer that removes it. *)
Theorem secret_cache_entry_outlives_five_minutes :
  let first := serve 0 [(1000%Z, Scenario.reply "s3cret" Db.Served)] Scenario.server in
  let later (now : Z) :=
    snd (serve 0
           [(1000%Z, Scenario.reply "s3cret" Db.Served);
            (now, Scenario.reply "s3cret" (Db.Failed "fetch failed"))]
           Scenario.server) in
  webhookSecretCache (fst first) !! cacheKey "acc" "s3cret" = Some (Some Scenario.crm_hook) /\
  (1000 + 300000 < 301001)%Z /\
  later 301001%Z = [Ok; Ok] /\
  later 3599999%Z = [Ok; Ok] /\
  later 3600000%Z = [Ok; ServerError "fetch failed"].
Proof. vm_compute. repeat split. Qed.

End SecretCacheFacts.

(* ================================================================== *)
(** * Part III: further properties of the code *)
(* ================================================================== *)

(** ** More on the PhoneNumberNormalizer *)
Section NormalizerMore.
Import JS Normalizer.

Lemma remove_leading_zeros_no_zero s :
  startsWith (remove_leading_zeros s) "0" = false.
Proof.
  induction s as [|c r IH]; [reflexivity|].
  cbn [remove_leading_zeros]. destruct (Ascii.eqb c "0") eqn:E; [exact IH|].
  cbn [startsWith]. rewrite Ascii.eqb_sym, E. reflexivity.
Qed.

(** X1: every address [formatPhoneNumber] builds is a string of digits
    that does not begin with a zero, followed by [@c.us]; whatever the
    input, nothing else of it reaches the address. *)
Theorem formatPhoneNumber_shape (number : string) :
  formatPhoneNumber number = cleaned number +:+ "@c.us" /\
  all_digits (cleaned number) = true /\
  startsWith (cleaned number) "0" = false.
Proof.
  split; [reflexivity|]. split.
  - apply all_digits_cleaned.
  - apply remove_leading_zeros_no_zero.
Qed.

(** X2: a number with fewer than ten digits gets [91] in front of its
    digits as they are: zeros at the start of the local number stay, right
    after the country code. *)
Theorem formatPhoneNumber_below_ten_digits (number : string) :
  String.length (remove_non_digits number) < 10 ->
  formatPhoneNumber number = "91" +:+ remove_non_digits number +:+ "@c.us".
Proof.
  intros H. unfold formatPhoneNumber, cleaned, test_ten_or_more_digits.
  apply Nat.leb_gt in H. rewrite H, andb_false_r. reflexivity.
Qed.

Lemma formatPhoneNumber_below_ten_digits_witness :
  String.length (remove_non_digits "(012) 345") < 10 /\
  formatPhoneNumber "(012) 345" = "91012345@c.us".
Proof.
  split; [vm_compute; lia|].
  apply (formatPhoneNumber_below_ten_digits "(012) 345"). vm_compute; lia.
Defined.

(** X3: with ten digits or more no country code is added, and the zeros
    the number starts with are dropped: a number in trunk-prefix notation
    loses its prefix and is sent without a country code. *)
Theorem formatPhoneNumber_ten_digits_or_more (number : string) :
  10 <= String.length (remove_non_digits number) ->
  formatPhoneNumber number =
  remove_leading_zeros (remove_non_digits number) +:+ "@c.us".
Proof.
  intros H. unfold formatPhoneNumber, cleaned, test_ten_or_more_digits.
  apply Nat.leb_le in H. rewrite H, all_digits_remove_non_digits. reflexivity.
Qed.

Lemma formatPhoneNumber_ten_digits_or_more_witness :
  10 <= String.length (remove_non_digits "098765 43210") /\
  formatPhoneNumber "098765 43210" = "9876543210@c.us".
Proof.
  split; [vm_compute; lia|].
  apply (formatPhoneNumber_ten_digits_or_more "098765 43210"). vm_compute; lia.
Defined.

Lemma Map_set_length k v (m : NumberCache) : length (Map_set k v m) <= S (length m).
Proof.
  induction m as [|[k' v'] r IH]; cbn; [lia|].
  destruct (String.eqb k' k); cbn; lia.
Qed.

Lemma Map_get_set k v (m : NumberCache) : Map_get k (Map_set k v m) = Some v.
Proof.
  induction m as [|[k' v'] r IH]; cbn.
  - now rewrite String.eqb_refl.
  - destruct (String.eqb k' k) eqn:E; cbn; rewrite E; [reflexivity|exact IH].
Qed.

Lemma Map_delete_first_length (m : NumberCache) k :
  Map_first_key m = Some k -> length (Map_delete k m) < length m.
Proof.
  destruct m as [|[k' v'] r]; [discriminate|]. intros [= ->].
  unfold Map_delete. cbn. rewrite String.eqb_refl. cbn.
  pose proof (List.filter_length_le (fun e => negb (String.eqb (fst e) k)) r). lia.
Qed.

Lemma getFormattedNumber_bound number (c : option NumberCache) :
  length (default [] c) <= 1001 ->
  length (default [] (snd (getFormattedNumber number c))) <= 1001.
Proof.
  intros H. unfold getFormattedNumber.
  set (cache := match c with None => [] | Some m => m end).
  assert (Hc : length cache <= 1001) by (destruct c; exact H).
  destruct (Map_get number cache); cbn [snd from_option id]; [exact Hc|].
  etransitivity; [apply Map_set_length|].
  destruct (1000 <? length cache)%nat eqn:E.
  - destruct (Map_first_key cache) as [k|] eqn:F.
    + pose proof (Map_delete_first_length cache k F). lia.
    + destruct cache as [|[k v] r]; [discriminate E|discriminate F].
  - apply Nat.ltb_ge in E. lia.
Qed.

Lemma cache_after_snoc calls number :
  cache_after (calls ++ [number]) = snd (getFormattedNumber number (cache_after calls)).
Proof. unfold cache_after. now rewrite fold_left_app. Qed.

Lemma Map_get_None_keys k (m : NumberCache) :
  Map_get k m = None <-> ~ In k (map fst m).
Proof.
  induction m as [|[k' v'] r IH]; cbn; [tauto|].
  destruct (String.eqb k' k) eqn:E.
  - apply String.eqb_eq in E. split; [discriminate|]. intros H. exfalso. auto.
  - apply String.eqb_neq in E. rewrite IH. tauto.
Qed.

Lemma Map_set_absent k v (m : NumberCache) :
  Map_get k m = None -> Map_set k v m = m ++ [(k, v)].
Proof.
  induction m as [|[k' v'] r IH]; cbn; [reflexivity|].
  destruct (String.eqb k' k); [discriminate|]. intros H. now rewrite (IH H).
Qed.

Lemma Map_delete_absent k (m : NumberCache) :
  ~ In k (map fst m) -> Map_delete k m = m.
Proof.
  unfold Map_delete. induction m as [|[k' v'] r IH]; cbn; [reflexivity|].
  intros H. destruct (String.eqb k' k) eqn:E.
  - apply String.eqb_eq in E. exfalso. auto.
  - cbn. rewrite IH; auto.
Qed.

(** With one entry per key, deleting the first key takes the first entry
    and nothing else. *)
Lemma Map_delete_first (m : NumberCache) k :
  NoDup (map fst m) -> Map_first_key m = Some k -> Map_delete k m = tl m.
Proof.
  destruct m as [|[k' v'] r]; [discriminate|]. cbn [map fst tl Map_first_key].
  intros Hnd [= ->]. inversion Hnd as [|? ? Hnotin _]; subst.
  rewrite list_elem_of_In in Hnotin.
  rewrite <- (Map_delete_absent k r Hnotin) at 2.
  unfold Map_delete. cbn. now rewrite String.eqb_refl.
Qed.

Lemma getFormattedNumber_keys number (c : option NumberCache) :
  NoDup (map fst (default [] c)) ->
  NoDup (map fst (default [] (snd (getFormattedNumber number c)))).
Proof.
  intros H. unfold getFormattedNumber.
  set (cache := match c with None => [] | Some m => m end).
  assert (Hc : NoDup (map fst cache)) by (destruct c; exact H).
  destruct (Map_get number cache) eqn:G; cbn [snd from_option id]; [exact Hc|].
  set (evicted := if (1000 <? length cache)%nat then _ else cache).
  assert (He : NoDup (map fst evicted) /\ Map_get number evicted = None).
  { unfold evicted. destruct (1000 <? length cache)%nat; [|auto].
    destruct (Map_first_key cache) as [k|] eqn:F; [|auto].
    rewrite (Map_delete_first cache k Hc F).
    destruct cache as [|[k' v'] r]; [discriminate|]. cbn [tl].
    cbn in Hc, G. inversion Hc; subst.
    destruct (String.eqb k' number); [discriminate|]. auto. }
  destruct He as [He1 He2]. rewrite (Map_set_absent _ _ _ He2).
  rewrite List.map_app. cbn [map fst]. apply NoDup_app. split; [exact He1|]. split.
  - intros x Hx Hx'. apply list_elem_of_In in Hx, Hx'. destruct Hx' as [<-|[]].
    apply Map_get_None_keys in He2. auto.
  - apply NoDup_singleton.
Qed.

Lemma cache_after_keys calls : NoDup (map fst (default [] (cache_after calls))).
Proof.
  induction calls as [|n calls IH] using rev_ind; [constructor|].
  rewrite cache_after_snoc. now apply getFormattedNumber_keys.
Qed.

(** X4: the number cache never holds more than 1001 entries, and the
    number of the latest call is always in it, with its address.  A call
    for a number that is in the cache leaves the cache as it is; a call for
    a new number puts its entry last, after the first, that is the oldest,
    entry has been taken out if the cache held more than 1000. *)
Theorem numberFormatCache_bounded (calls : list string) (number : string) :
  let cache := default [] (cache_after calls) in
  let after := default [] (cache_after (calls ++ [number])) in
  length after <= 1001 /\
  Map_get number after = Some (formatPhoneNumber number) /\
  after =
    match Map_get number cache with
    | Some _ => cache
    | None =>
        (if (1000 <? length cache)%nat then tl cache else cache)
          ++ [(number, formatPhoneNumber number)]
    end.
Proof.
  cbv zeta. split; [|split].
  - induction (calls ++ [number]) as [|n l IH] using rev_ind; [cbn; lia|].
    rewrite cache_after_snoc. now apply getFormattedNumber_bound.
  - rewrite cache_after_snoc.
    pose proof (cache_after_sound calls) as Hs.
    unfold getFormattedNumber.
    set (cache := match cache_after calls with None => [] | Some m => m end).
    assert (Hc : cache_sound cache).
    { unfold cache. destruct (cache_after calls); [exact Hs|constructor]. }
    destruct (Map_get number cache) as [v|] eqn:G; cbn [snd from_option id].
    + rewrite G. f_equal. eapply Map_get_sound; eauto.
    + apply Map_get_set.
  - rewrite cache_after_snoc.
    pose proof (cache_after_keys calls) as Hk.
    unfold getFormattedNumber.
    change (default [] (cache_after calls))
      with (match cache_after calls with None => [] | Some m => m end) in *.
    set (cache := match cache_after calls with None => [] | Some m => m end) in *.
    destruct (Map_get number cache) as [v|] eqn:G; cbn [snd from_option id];
      [reflexivity|].
    destruct (1000 <? length cache)%nat.
    + destruct (Map_first_key cache) as [k|] eqn:F.
      * rewrite (Map_delete_first cache k Hk F). apply Map_set_absent.
        destruct cache as [|[k' v'] r]; [discriminate|]. cbn in G |- *.
        now destruct (String.eqb k' number).
      * destruct cache as [|[k' v'] r]; [|discriminate]. reflexivity.
    + now apply Map_set_absent.
Qed.

End NormalizerMore.

(** ** More on [sendMessage], [deleteAccount] and the handlers *)
Section ManagerMore.
Import Manager.

Lemma sendMessage_success_restores_depth_witness :
  admissible "acc" (Scenario.ready_world 3) /\
  snd (sendMessage "acc" "+919876543210" "hello" 1000 (inr Scenario.delivered)
         (Scenario.ready_world 3)) =
    inr {| success := true; messageId := "true_919876543210@c.us_3EB0";
           result_timestamp := 1700000000 |} /\
  length (queue_of "acc"
            (fst (sendMessage "acc" "+919876543210" "hello" 1000 (inr Scenario.delivered)
                    (Scenario.ready_world 3)))) = 3.
Proof.
  assert (H : admissible "acc" (Scenario.ready_world 3)).
  { split; [vm_compute; lia|]. split; [|reflexivity].
    exists Scenario.open_client. split; reflexivity. }
  split; [exact H|].
  destruct (sendMessage_success_restores_depth "acc" "+919876543210" "hello" 1000
              Scenario.delivered (Scenario.ready_world 3) H) as (H1 & H2 & _).
  split; [exact H1|exact H2].
Defined.

(** The queue of an account as [sendMessage] finds or creates it. *)
Lemma queue_created accountId (w : World) :
  default []
    (match (match messageQueues w with Some q => q | None => ∅ end) !! accountId with
     | Some _ => match messageQueues w with Some q => q | None => ∅ end
     | None => <[accountId := []]> (match messageQueues w with Some q => q | None => ∅ end)
     end !! accountId) = queue_of accountId w.
Proof.
  unfold queue_of. destruct (messageQueues w) as [q|].
  - destruct (q !! accountId) eqn:E; [now rewrite E|]. now rewrite lookup_insert_eq.
  - rewrite lookup_empty. now rewrite lookup_insert_eq.
Qed.

(** What a call that fails one of the three checks of the client does:
    nothing is queued or sent, and the failure is logged. *)
Lemma sendMessage_refused accountId number message now outcome w e :
  length (queue_of accountId w) <= 20 ->
  match clients w !! accountId with
  | None => e = client_not_found
  | Some client =>
      if status_not_ready (accountStatus w !! accountId)
      then e = not_ready (accountStatus w !! accountId)
      else page_unusable client = true /\ e = page_closed
  end ->
  snd (sendMessage accountId number message now outcome w) = inl e /\
  transport (fst (sendMessage accountId number message now outcome w)) = transport w /\
  queue_of accountId (fst (sendMessage accountId number message now outcome w)) =
    queue_of accountId w /\
  scheduled_logs (fst (sendMessage accountId number message now outcome w)) =
    scheduled_logs w ++ [outgoing_failed accountId number message e].
Proof.
  intros Hlen He. unfold sendMessage, sendMessage_start. cbv zeta.
  rewrite queue_created. apply Nat.ltb_ge in Hlen. rewrite Hlen.
  cbn [clients accountStatus set_messageQueues].
  assert (Hq : forall q l, queue_of accountId
            (schedule_log l (set_messageQueues (Some
               (match (match messageQueues w with Some q => q | None => ∅ end) !! accountId with
                | Some _ => match messageQueues w with Some q => q | None => ∅ end
                | None => <[accountId := []]> (match messageQueues w with Some q => q | None => ∅ end)
                end)) q)) = queue_of accountId w).
  { intros q l. unfold queue_of at 1. cbn [messageQueues schedule_log set_messageQueues].
    apply queue_created. }
  destruct (clients w !! accountId) as [client|].
  - destruct (status_not_ready (accountStatus w !! accountId)).
    + subst e. cbn [fst snd]. rewrite Hq. auto.
    + destruct He as [Hp ->]. rewrite Hp. cbn [fst snd]. rewrite Hq. auto.
  - subst e. cbn [fst snd]. rewrite Hq. auto.
Qed.

(** X6: on an account whose status is not [ready], a send within the cap
    fails with the not-ready error that names the status; the transport
    client is not called, nothing is queued, and the failure is logged as a
    failed outgoing message. *)
Theorem sendMessage_not_ready accountId number message now outcome w client :
  length (queue_of accountId w) <= 20 ->
  clients w !! accountId = Some client ->
  accountStatus w !! accountId <> Some "ready" ->
  let r := sendMessage accountId number message now outcome w in
  snd r = inl (not_ready (accountStatus w !! accountId)) /\
  transport (fst r) = transport w /\
  queue_of accountId (fst r) = queue_of accountId w /\
  scheduled_logs (fst r) =
    scheduled_logs w ++
    [outgoing_failed accountId number message (not_ready (accountStatus w !! accountId))].
Proof.
  intros Hlen Hc Hs. apply sendMessage_refused; [exact Hlen|].
  rewrite Hc.
  assert (status_not_ready (accountStatus w !! accountId) = true) as ->; [|reflexivity].
  destruct (accountStatus w !! accountId) as [st|]; [|reflexivity]. cbn.
  destruct (String.eqb st "ready") eqn:E; [|reflexivity].
  apply String.eqb_eq in E. congruence.
Qed.

Lemma sendMessage_not_ready_witness :
  let w := fst (createAccount "new" "Support" "" (inr tt) Db.Served Scenario.stored_world) in
  snd (sendMessage "new" "+919876543210" "hello" 1000 (inr Scenario.delivered) w) =
    inl "WhatsApp client is not ready. Current status: initializing".
Proof.
  cbv zeta.
  apply (sendMessage_not_ready "new" "+919876543210" "hello" 1000 (inr Scenario.delivered)
           (fst (createAccount "new" "Support" "" (inr tt) Db.Served Scenario.stored_world))
           new_client).
  - vm_compute; lia.
  - reflexivity.
  - vm_compute. discriminate.
Defined.

Lemma deleteAccount_queue accountId destroy r w :
  queue_of accountId (fst (deleteAccount accountId destroy r w)) = queue_of accountId w.
Proof.
  unfold deleteAccount.
  destruct (clients w !! accountId), destroy, r; reflexivity.
Qed.

(** X7: once [deleteAccount] has destroyed the client of an account, a
    send for that account fails with the client-not-found error and calls
    no transport client, also when the database refused the delete of the
    row.  The queue of the account is not cleared by [deleteAccount], so
    this holds while its depth is within the cap. *)
Theorem sendMessage_after_deleteAccount accountId r number message now outcome w :
  length (queue_of accountId w) <= 20 ->
  let w1 := fst (deleteAccount accountId (inr tt) r w) in
  let res := sendMessage accountId number message now outcome w1 in
  snd res = inl client_not_found /\
  transport (fst res) = transport w1 /\
  getAccountStatus accountId w1 = None.
Proof.
  intros Hlen. cbv zeta.
  assert (Hc : clients (fst (deleteAccount accountId (inr tt) r w)) !! accountId = None).
  { unfold deleteAccount. destruct (clients w !! accountId) eqn:E, r; cbn;
      rewrite ?lookup_delete_eq; auto. }
  assert (Hs : getAccountStatus accountId (fst (deleteAccount accountId (inr tt) r w)) = None).
  { unfold deleteAccount, getAccountStatus. destruct (clients w !! accountId), r; cbn;
      now rewrite lookup_delete_eq. }
  destruct (sendMessage_refused accountId number message now outcome
              (fst (deleteAccount accountId (inr tt) r w)) client_not_found)
    as (H1 & H2 & _).
  - now rewrite deleteAccount_queue.
  - now rewrite Hc.
  - auto.
Qed.

Lemma sendMessage_after_deleteAccount_witness :
  snd (sendMessage "acc" "+919876543210" "hello" 1000 (inr Scenario.delivered)
         (fst (deleteAccount "acc" (inr tt) (Db.Failed "timeout") Scenario.stored_world)))
  = inl client_not_found.
Proof.
  apply (sendMessage_after_deleteAccount "acc" (Db.Failed "timeout") "+919876543210"
           "hello" 1000 (inr Scenario.delivered) Scenario.stored_world).
  vm_compute; lia.
Defined.

(** X8: a QR code is served from the moment the [qr] handler has stored
    it until the [ready] handler has run with the database taking its
    update; if the database refuses that update, the handler stops there:
    the code stays retrievable and the status stays [qr_ready]. *)
Theorem qr_code_lifecycle accountId dataUrl user e w :
  let w1 := on_qr accountId (inr dataUrl) Db.Served w in
  getQRCode accountId w1 = Some dataUrl /\
  getAccountStatus accountId w1 = Some "qr_ready" /\
  getQRCode accountId (on_ready accountId user Db.Served w1) = None /\
  getAccountStatus accountId (on_ready accountId user Db.Served w1) = Some "ready" /\
  getQRCode accountId (on_ready accountId user (Db.Failed e) w1) = Some dataUrl /\
  getAccountStatus accountId (on_ready accountId user (Db.Failed e) w1) = Some "qr_ready".
Proof.
  unfold on_qr, on_ready, getQRCode, getAccountStatus. cbn.
  rewrite ?lookup_delete_eq, ?lookup_insert_eq. auto 10.
Qed.

(** What one call of [sendMessage] adds to the calls on the transport. *)
Lemma sendMessage_transport accountId number message now outcome w :
  transport (fst (sendMessage accountId number message now outcome w)) = transport w \/
  (exists formattedNumber,
     transport (fst (sendMessage accountId number message now outcome w)) =
       transport w ++ [Send accountId formattedNumber message]) /\
  admissible accountId w.
Proof.
  unfold sendMessage, sendMessage_start. cbv zeta. rewrite queue_created.
  destruct (20 <? length (queue_of accountId w))%nat eqn:Hlen; [now left|].
  apply Nat.ltb_ge in Hlen. cbn [clients accountStatus set_messageQueues].
  destruct (clients w !! accountId) as [client|] eqn:Hc; [|now left].
  destruct (status_not_ready (accountStatus w !! accountId)) eqn:Hs; [now left|].
  destruct (page_unusable client) eqn:Hp; [now left|].
  right. split.
  - eexists. unfold sendMessage_finish. destruct outcome as [err|result]; cbn.
    + reflexivity.
    + unfold remove_from_queue. cbn. rewrite lookup_insert_eq.
      destruct (findIndex _ _); reflexivity.
  - split; [exact Hlen|]. split; [eauto|].
    destruct (accountStatus w !! accountId) as [st|]; [|discriminate Hs].
    cbn in Hs. apply negb_false_iff, String.eqb_eq in Hs. now subst.
Qed.

(** X9: whatever happens to the manager, a message goes to the transport
    client of an account only when that account is [ready], has a usable
    page and has at most 20 sends in its queue. *)
Theorem only_ready_accounts_send (w : World) (ev : Event) accountId formattedNumber message :
  In (Send accountId formattedNumber message) (transport (step w ev)) ->
  In (Send accountId formattedNumber message) (transport w) \/
  admissible accountId w.
Proof.
  destruct ev; cbn [step].
  - unfold createAccount. destruct fs, r; cbn; rewrite ?in_app_iff; cbn;
      intuition discriminate.
  - unfold on_initialize_error. cbn. auto.
  - unfold on_qr. destruct qrDataUrl, r; cbn; auto.
  - unfold on_ready. destruct r; cbn; auto.
  - auto.
  - unfold on_auth_failure, on_status_event. destruct r; cbn; auto.
  - unfold on_disconnected, on_status_event. destruct r; cbn; auto.
  - unfold reconnectAccount_start, reconnect_failed. destruct fs, r; cbn;
      rewrite ?in_app_iff; cbn; intuition discriminate.
  - unfold reconnectAccount_finish, reconnect_failed. destruct init, r; cbn; auto.
  - unfold deleteAccount. destruct (clients w !! accountId0), destroy, r; cbn;
      rewrite ?in_app_iff; cbn; intuition discriminate.
  - destruct (sendMessage_transport accountId0 number message0 now outcome w)
      as [-> | [(f & ->) Ha]]; [auto|].
    rewrite in_app_iff. cbn. intros [H|[[= <- <- <-]|[]]]; auto.
  - destruct (clients w !! accountId0); cbn; auto.
Qed.

Lemma only_ready_accounts_send_witness :
  In (Send "acc" "919876543210@c.us" "hello") (transport Scenario.stored_world) \/
  admissible "acc" Scenario.stored_world.
Proof.
  apply (only_ready_accounts_send Scenario.stored_world
           (SendMessage "acc" "+919876543210" "hello" 1000 (inr Scenario.delivered))
           "acc" "919876543210@c.us" "hello").
  vm_compute. auto.
Defined.

(** X10: [createAccount] registers a client and starts it as soon as the
    session directories exist, before it knows what the database says.  If
    the insert is served the caller gets the row, with status
    [initializing]; if it is refused the caller gets the exception and the
    account is [failed], but its client stays registered and started, with
    no row behind it. *)
Theorem createAccount_registers accountId accountName description r w :
  let res := createAccount accountId accountName description (inr tt) r w in
  clients (fst res) !! accountId = Some new_client /\
  transport (fst res) = transport w ++ [Initialize accountId] /\
  match r with
  | Db.Served =>
      snd res = inr (accountData accountName description) /\
      getAccountStatus accountId (fst res) = Some "initializing" /\
      Db.whatsapp_accounts (database (fst res)) !! accountId =
        Some (accountData accountName description)
  | Db.Failed e =>
      snd res = inl e /\
      getAccountStatus accountId (fst res) = Some "failed" /\
      database (fst res) = database w
  end.
Proof.
  unfold createAccount, getAccountStatus. destruct r; cbn;
    rewrite ?lookup_insert_eq; auto 10.
Qed.

End ManagerMore.

(** ** The reconnect loop at the start of the process *)
Section StartupFacts.
Import Manager Startup.

Lemma step_transport_grows (w : World) (ev : Event) (c : TransportCall) :
  In c (transport w) -> In c (transport (step w ev)).
Proof.
  intros H. destruct ev; cbn [step].
  - unfold createAccount. destruct fs, r; cbn; rewrite ?in_app_iff; auto.
  - exact H.
  - unfold on_qr. destruct qrDataUrl, r; exact H.
  - unfold on_ready. destruct r; exact H.
  - exact H.
  - unfold on_auth_failure, on_status_event. destruct r; exact H.
  - unfold on_disconnected, on_status_event. destruct r; exact H.
  - unfold reconnectAccount_start, reconnect_failed. destruct fs, r; cbn;
      rewrite ?in_app_iff; auto.
  - unfold reconnectAccount_finish, reconnect_failed. destruct init, r; exact H.
  - unfold deleteAccount. destruct (clients w !! accountId), destroy, r; cbn;
      rewrite ?in_app_iff; auto.
  - destruct (sendMessage_transport accountId number message now outcome w)
      as [-> | [(f & ->) _]]; rewrite ?in_app_iff; auto.
  - destruct (clients w !! accountId); exact H.
Qed.

Lemma run_transport_grows events (w : World) (c : TransportCall) :
  In c (transport w) -> In c (transport (run events w)).
Proof.
  revert w. induction events as [|ev events IH]; intros w H; [exact H|].
  apply IH, step_transport_grows, H.
Qed.

(** A reconnect whose directory exists and whose status update, if it
    comes to one, is served: the client is started and the loop goes on. *)
Lemma reconnectAccount_goes_on rc w :
  rc_fs rc = inr tt -> rc_reply rc = Db.Served ->
  snd (reconnectAccount rc w) = inr tt /\
  In (Initialize (rc_account rc)) (transport (fst (reconnectAccount rc w))) /\
  (forall c, In c (transport w) -> In c (transport (fst (reconnectAccount rc w)))).
Proof.
  intros Hfs Hr. unfold reconnectAccount. rewrite Hfs, Hr.
  cbn [reconnectAccount_start fst].
  set (w1 := call_transport _ _).
  assert (H1 : In (Initialize (rc_account rc)) (transport w1)).
  { unfold w1. cbn. rewrite in_app_iff. cbn. auto. }
  assert (H2 : forall c, In c (transport w) -> In c (transport w1)).
  { intros c Hc. unfold w1. cbn. rewrite in_app_iff. auto. }
  unfold reconnectAccount_finish, reconnect_failed.
  destruct (rc_init rc) as [e|[]]; cbn;
    (split; [reflexivity|]; split;
     [apply run_transport_grows, H1 | intros c Hc; apply run_transport_grows, H2, Hc]).
Qed.

(** X11: if the session directory can be made and the database serves
    the status updates, the loop at the start of the process starts the
    client of every stored account, whether or not the clients before it
    came up and whatever happened to them meanwhile. *)
Theorem initializeExistingAccounts_starts_all (accounts : list Reconnect) (w : World) :
  Forall (fun rc => rc_fs rc = inr tt /\ rc_reply rc = Db.Served) accounts ->
  forall rc, In rc accounts ->
    In (Initialize (rc_account rc))
       (transport (initializeExistingAccounts (inr accounts) w)).
Proof.
  intros Hall. unfold initializeExistingAccounts.
  assert (G : snd (reconnect_each accounts w) = inr tt /\
              (forall c, In c (transport w) ->
                 In c (transport (fst (reconnect_each accounts w)))) /\
              forall rc, In rc accounts ->
                In (Initialize (rc_account rc)) (transport (fst (reconnect_each accounts w)))).
  { revert w. induction Hall as [|rc l [Hfs Hr] _ IH]; intros w.
    - cbn. split; [reflexivity|]. split; [auto|intros ? []].
    - cbn [reconnect_each].
      destruct (reconnectAccount_goes_on rc w Hfs Hr) as (Hres & Hin & Hmono).
      destruct (reconnectAccount rc w) as [w1 [e|[]]]; cbn [fst snd] in *; [discriminate|].
      destruct (IH w1) as (IH1 & IH2 & IH3).
      split; [exact IH1|]. split; [auto|].
      intros rc' [<-|Hin']; auto. }
  destruct G as (Hres & _ & Hin).
  destruct (reconnect_each accounts w) as [w' [e|[]]]; cbn [fst snd] in *; [discriminate|].
  exact Hin.
Qed.

Lemma initializeExistingAccounts_starts_all_witness :
  let accounts :=
    [{| rc_account := "a1"; rc_fs := inr tt; rc_during := [];
        rc_init := inl "Timeout"; rc_reply := Db.Served |};
     {| rc_account := "a2"; rc_fs := inr tt;
        rc_during := [Ready "a2" "919876543210" Db.Served];
        rc_init := inr tt; rc_reply := Db.Served |}] in
  In (Initialize "a2") (transport (initializeExistingAccounts (inr accounts) initial)).
Proof.
  cbv zeta.
  refine (initializeExistingAccounts_starts_all
           [{| rc_account := "a1"; rc_fs := inr tt; rc_during := [];
               rc_init := inl "Timeout"; rc_reply := Db.Served |};
            {| rc_account := "a2"; rc_fs := inr tt;
               rc_during := [Ready "a2" "919876543210" Db.Served];
               rc_init := inr tt; rc_reply := Db.Served |}] initial _
            {| rc_account := "a2"; rc_fs := inr tt;
               rc_during := [Ready "a2" "919876543210" Db.Served];
               rc_init := inr tt; rc_reply := Db.Served |} _).
  - repeat constructor.
  - cbn. auto.
Defined.

Lemma reconnect_each_throws pre rc rest w :
  (exists e, snd (reconnectAccount rc (fst (reconnect_each pre w))) = inl e) ->
  reconnect_each (pre ++ rc :: rest) w = reconnect_each (pre ++ [rc]) w.
Proof.
  revert w. induction pre as [|x pre IH]; intros w [e He]; cbn in *.
  - destruct (reconnectAccount rc w) as [w1 [e1|[]]]; cbn in *; [reflexivity|discriminate].
  - destruct (reconnectAccount x w) as [w1 [e1|[]]]; cbn in *; [reflexivity|].
    apply IH. eauto.
Qed.

(** X12: a reconnect whose client does not come up while the database
    also refuses the status update throws out of the loop: the stored
    accounts after it are never reconnected, whatever they are. *)
Theorem initializeExistingAccounts_stops (pre rest : list Reconnect) (rc : Reconnect)
  (e e' : Error) (w : World) :
  rc_init rc = inl e -> rc_reply rc = Db.Failed e' ->
  initializeExistingAccounts (inr (pre ++ rc :: rest)) w =
  initializeExistingAccounts (inr (pre ++ [rc])) w.
Proof.
  intros Hi Hr. unfold initializeExistingAccounts.
  rewrite (reconnect_each_throws pre rc rest w); [reflexivity|].
  exists e'. unfold reconnectAccount, reconnectAccount_start, reconnectAccount_finish,
    reconnect_failed.
  rewrite Hi, Hr. destruct (rc_fs rc); reflexivity.
Qed.

Lemma initializeExistingAccounts_stops_witness :
  let failing :=
    {| rc_account := "a1"; rc_fs := inr tt; rc_during := [];
       rc_init := inl "Timeout"; rc_reply := Db.Failed "fetch failed" |} in
  let other :=
    {| rc_account := "a2"; rc_fs := inr tt; rc_during := [];
       rc_init := inr tt; rc_reply := Db.Served |} in
  initializeExistingAccounts (inr ([] ++ failing :: [other])) initial =
  initializeExistingAccounts (inr ([] ++ [failing])) initial.
Proof.
  cbv zeta.
  apply (initializeExistingAccounts_stops []
           [{| rc_account := "a2"; rc_fs := inr tt; rc_during := [];
               rc_init := inr tt; rc_reply := Db.Served |}]
           {| rc_account := "a1"; rc_fs := inr tt; rc_during := [];
              rc_init := inl "Timeout"; rc_reply := Db.Failed "fetch failed" |}
           "Timeout" "fetch failed" initial); reflexivity.
Defined.

End StartupFacts.

(** ** The query cache of the database glue *)
Section QueryCacheFacts.
Import Db.


Lemma getWebhooks_miss accountId now d :
  queryCache d !! webhooks_key accountId = None ->
  getWebhooks accountId now Served d =
  (with_queryCache
     (insert (webhooks_key accountId)
        {| data := List.filter (fun w => String.eqb (account_id w) accountId) (webhooks d);
           timestamp := now |}) d,
   inr (List.filter (fun w => String.eqb (account_id w) accountId) (webhooks d))).
Proof. intros H. unfold getWebhooks. now rewrite H. Qed.










End QueryCacheFacts.

(** ** The batched message log *)
Section BatcherFacts.
Import LogBatcher.
Variable Row : Type.
Variable strip : string -> Row -> Row.

Abbreviation state := (LogBatcher.t Row).
Abbreviation flush := (flushMessageQueue Row strip).
Abbreviation log := (logMessage Row strip).
Abbreviation queue_now s := (default [] (messageQueue s)).
Abbreviation kept := (LogBatcher.kept Row strip).

Lemma insert_batch_sanitized messages first retry stored :
  insert_batch Row strip messages first retry = Some stored ->
  Forall2 (sanitized Row strip) messages stored.
Proof.
  unfold insert_batch. destruct first as [|error|e]; [|..|discriminate].
  - intros [= <-]. induction messages; constructor; [now left|assumption].
  - destruct (String.eqb (code error) "PGRST204"); [|discriminate].
    destruct (unknown_column (message error)) as [col|]; [|discriminate].
    destruct retry; try discriminate. intros [= <-].
    induction messages; constructor; [right; eauto|assumption].
Qed.

Lemma flush_kept records now first retry s :
  kept records s -> kept records (flush now first retry s).
Proof.
  intros (flushed & Hr & Hf). unfold flushMessageQueue.
  destruct (messageQueue s) as [[|m l]|] eqn:Hq; try (exists flushed; rewrite Hq; auto; fail).
  destruct (insert_batch Row strip (m :: l) first retry) as [stored|] eqn:Hi.
  - exists (flushed ++ m :: l). cbn. rewrite app_nil_r. split; [exact Hr|].
    apply Forall2_app; [exact Hf|]. eapply insert_batch_sanitized; eauto.
  - exists flushed. cbn. rewrite app_nil_r. cbn in Hr. auto.
Qed.

Lemma log_kept records messageData now first retry s :
  kept records s -> kept (records ++ [messageData]) (fst (log messageData now first retry s)).
Proof.
  intros (flushed & Hr & Hf). unfold logMessage.
  set (s1 := match messageQueue s with Some _ => s | None => _ end).
  assert (H1 : queue_now s1 = queue_now s /\ message_logs s1 = message_logs s).
  { unfold s1. destruct (messageQueue s) eqn:E; cbn; rewrite ?E; auto. }
  destruct H1 as [Hq1 Hl1].
  set (s2 := {| messageQueue := Some (queue_now s1 ++ [messageData]);
                lastFlushTime := lastFlushTime s1;
                message_logs := message_logs s1; console := console s1 |}).
  assert (H2 : kept (records ++ [messageData]) s2).
  { exists flushed. cbn. rewrite Hq1, Hl1, Hr, app_assoc. auto. }
  destruct (_ || _); cbn [fst]; [apply flush_kept|]; exact H2.
Qed.

(** X17: in the message log no record is lost, doubled or moved: after
    any sequence of [logMessage] calls and timer flushes, with inserts
    that are stored, refused or thrown, the stored rows followed by the
    queue are the logged records in the order of the calls, a stored row
    being its record or its record without the column the database did not
    know. *)
Theorem message_log_keeps_every_record (calls : list (Call Row)) :
  exists flushed,
    logged Row calls = flushed ++ queue_now (run Row strip calls) /\
    Forall2 (sanitized Row strip) flushed (message_logs (run Row strip calls)).
Proof.
  change (kept (logged Row calls) (run Row strip calls)).
  unfold run. induction calls as [|c calls IH] using rev_ind.
  - exists []. cbn. auto.
  - rewrite fold_left_app. unfold logged in *. rewrite omap_app. cbn [fold_left].
    destruct c as [m now first retry|now first retry]; cbn [omap list_omap call].
    + apply log_kept, IH.
    + rewrite app_nil_r. apply flush_kept, IH.
Qed.

(** X18: a call of [logMessage] whose insert the database stores leaves
    fewer than ten records in the queue, whatever the queue was: at ten the
    batch is flushed without waiting for the five seconds. *)
Theorem logMessage_flushes_at_ten (messageData : Row) (now : Z) (retry : InsertReply)
  (s : state) :
  length (queue_now (fst (log messageData now Inserted retry s))) < 10.
Proof.
  unfold logMessage.
  set (s1 := match messageQueue s with Some _ => s | None => _ end).
  set (queue := queue_now s1 ++ [messageData]).
  destruct (10 <=? length queue)%nat eqn:E; cbn [orb fst].
  - unfold flushMessageQueue. cbn [messageQueue].
    destruct queue as [|m l] eqn:Q; cbn; [|lia].
    apply Nat.leb_le in E. cbn in E. lia.
  - apply Nat.leb_gt in E.
    destruct (overdue now _); cbn [fst].
    + unfold flushMessageQueue. cbn [messageQueue].
      destruct queue as [|m l] eqn:Q; cbn; [|lia]. exact E.
    + cbn. exact E.
Qed.

(** X19: once five seconds have passed since the last flush, the next
    [logMessage] flushes however few records there are: if the database
    stores the batch, the queue is empty afterwards and the table has grown
    by the queue and the new record. *)
Theorem logMessage_flushes_after_five_seconds (messageData : Row) (now last : Z)
  (retry : InsertReply) (queue : list Row) (s : state) :
  messageQueue s = Some queue ->
  lastFlushTime s = Some last ->
  (last + 5000 < now)%Z ->
  let s' := fst (log messageData now Inserted retry s) in
  messageQueue s' = Some [] /\
  message_logs s' = message_logs s ++ queue ++ [messageData] /\
  lastFlushTime s' = Some now.
Proof.
  intros Hq Hl Ht. unfold logMessage. rewrite Hq. cbn [from_option id lastFlushTime].
  rewrite Hl. unfold overdue.
  assert ((5000 <? now - last)%Z = true) as -> by (apply Z.ltb_lt; lia).
  rewrite orb_true_r. cbn [fst]. unfold flushMessageQueue. cbn [messageQueue].
  rewrite ?Hq. cbn [from_option id].
  destruct (queue ++ [messageData]) as [|m l] eqn:Q.
  - now destruct queue.
  - cbn. auto.
Qed.

Lemma span_unquoted_app s :
  s = fst (span_unquoted s) +:+ snd (span_unquoted s).
Proof.
  induction s as [|c r IH]; [reflexivity|]. cbn.
  destruct (Ascii.eqb c "'"); [reflexivity|].
  cbn [fst snd]. change (String c r = String c (fst (span_unquoted r) +:+ snd (span_unquoted r))).
  now rewrite <- IH.
Qed.

Lemma span_unquoted_no_quote s :
  JS.includes (fst (span_unquoted s)) "'" = false.
Proof.
  induction s as [|c r IH]; [reflexivity|]. cbn.
  destruct (Ascii.eqb c "'") eqn:E; [reflexivity|].
  cbn [fst JS.includes JS.startsWith]. rewrite Ascii.eqb_sym, E. exact IH.
Qed.

Lemma startsWith_prefix s p :
  JS.startsWith s p = true -> exists rest, s = p +:+ rest.
Proof.
  revert s. induction p as [|a p IH]; intros s H.
  - exists s. reflexivity.
  - destruct s as [|b s]; [discriminate|]. cbn in H.
    apply andb_prop in H as [Hab Hs]. apply Ascii.eqb_eq in Hab. subst b.
    destruct (IH s Hs) as [rest ->]. exists rest. reflexivity.
Qed.

End BatcherFacts.

(** X20: the column [flushMessageQueue] takes out of the rows before
    it tries the insert again is a name the error message has between
    quotes right before the word [column]: it is not empty, has no quote in
    it, and the message reads, somewhere, quote, name, quote, [column]. *)
Theorem unknown_column_quoted (message unknownCol : string) :
  LogBatcher.unknown_column message = Some unknownCol ->
  unknownCol <> "" /\
  JS.includes unknownCol "'" = false /\
  exists before after, message = before +:+ "'" +:+ unknownCol +:+ "' column" +:+ after.
Proof.
  induction message as [|c r IH]; [discriminate|].
  cbn [LogBatcher.unknown_column].
  assert (Hskip : LogBatcher.unknown_column r = Some unknownCol ->
    unknownCol <> "" /\ JS.includes unknownCol "'" = false /\
    exists before after,
      String c r = before +:+ "'" +:+ unknownCol +:+ "' column" +:+ after).
  { intros H. destruct (IH H) as (H1 & H2 & before & after & ->).
    split; [exact H1|]. split; [exact H2|]. exists (String c before), after. reflexivity. }
  destruct (Ascii.eqb c "'") eqn:E; [|exact Hskip].
  destruct (JS.truthy (fst (LogBatcher.span_unquoted r)) &&
            JS.startsWith (snd (LogBatcher.span_unquoted r)) "' column") eqn:T;
    [|exact Hskip].
  intros [= <-]. apply andb_prop in T as [Tt Ts].
  split; [intros Hempty; rewrite Hempty in Tt; discriminate|].
  split; [apply span_unquoted_no_quote|].
  apply startsWith_prefix in Ts as [after Hafter].
  exists "", after. apply Ascii.eqb_eq in E. subst c.
  change (String "'" r = String "'" (fst (LogBatcher.span_unquoted r) +:+ "' column" +:+ after)).
  rewrite <- Hafter. f_equal. apply span_unquoted_app.
Qed.

Lemma unknown_column_quoted_witness :
  LogBatcher.unknown_column
    "Could not find the 'timestamp' column of 'message_logs' in the schema cache"
    = Some "timestamp" /\
  "timestamp" <> "".
Proof.
  split; [reflexivity|].
  apply (unknown_column_quoted
           "Could not find the 'timestamp' column of 'message_logs' in the schema cache"
           "timestamp").
  reflexivity.
Defined.

(** X21: the counts of [getMessageStats] by direction and by status
    never add up to more than the total; the rows of webhook deliveries and
    of incoming webhooks count in the total only. *)
Theorem getMessageStats_counts (Row : Type) (direction status : Row -> string)
  (data : list Row) :
  let stats := LogBatcher.getMessageStats Row direction status data in
  LogBatcher.incoming stats + LogBatcher.outgoing stats <= LogBatcher.total stats /\
  LogBatcher.success stats + LogBatcher.failed stats <= LogBatcher.total stats /\
  (Forall (fun m => direction m = "incoming" \/ direction m = "outgoing") data ->
   LogBatcher.incoming stats + LogBatcher.outgoing stats = LogBatcher.total stats).
Proof.
  cbn.
  assert (G : forall (f : Row -> string) a b, a <> b ->
    length (List.filter (fun m => String.eqb (f m) a) data) +
    length (List.filter (fun m => String.eqb (f m) b) data) <= length data /\
    (Forall (fun m => f m = a \/ f m = b) data ->
     length (List.filter (fun m => String.eqb (f m) a) data) +
     length (List.filter (fun m => String.eqb (f m) b) data) = length data)).
  { intros f a b Hab. induction data as [|m l [IH1 IH2]]; [cbn; auto|]. cbn.
    destruct (String.eqb (f m) a) eqn:Ea, (String.eqb (f m) b) eqn:Eb; cbn.
    - apply String.eqb_eq in Ea, Eb. congruence.
    - split; [lia|]. intros H. inversion H; subst. rewrite IH2 by assumption. lia.
    - split; [lia|]. intros H. inversion H; subst. rewrite <- IH2 by assumption. lia.
    - split; [lia|]. intros H. inversion H as [|? ? [Hm|Hm] ?]; subst.
      + rewrite String.eqb_refl in Ea. discriminate.
      + rewrite String.eqb_refl in Eb. discriminate. }
  split; [apply G; discriminate|]. split; [apply G; discriminate|].
  apply G. discriminate.
Qed.

Lemma logMessage_flushes_after_five_seconds_witness :
  let s : LogBatcher.t string :=
    {| LogBatcher.messageQueue := Some ["first"]; LogBatcher.lastFlushTime := Some 1000%Z;
       LogBatcher.message_logs := []; LogBatcher.console := [] |} in
  LogBatcher.message_logs
    (fst (LogBatcher.logMessage string (fun _ m => m) "second" 6001 LogBatcher.Inserted
            LogBatcher.Inserted s)) = ["first"; "second"].
Proof.
  cbv zeta.
  refine (proj1 (proj2 (logMessage_flushes_after_five_seconds string (fun _ m => m)
           "second" 6001 1000 LogBatcher.Inserted ["first"]
           {| LogBatcher.messageQueue := Some ["first"];
              LogBatcher.lastFlushTime := Some 1000%Z;
              LogBatcher.message_logs := []; LogBatcher.console := [] |} _ _ _)));
    [reflexivity|reflexivity|lia].
Defined.

(** ** The session middleware *)
Section AuthFacts.
Import Auth.

(** X22: [requireAuth] lets a request through exactly when its session
    is marked as authenticated, and the only thing that sets the mark is a
    [login] with the expected user name that bcrypt accepts: after it every
    path is open and the login page leads to the dashboard; after any other
    [login] the session is what it was; after a [logout] nothing is open,
    API paths answer 401 and pages lead to the login page. *)
Theorem session_opens_and_closes (body_username : string) (env_username : option string)
  (compare : string + bool) (now : Z) (session : Session) (path : string) :
  let attempt := login body_username env_username compare now session in
  (requireAuth (Some (fst attempt)) path = Next <->
   authenticated session = true \/
   (body_username = env_or env_username "admin" /\ compare = inr true)) /\
  (snd attempt = Json 200 ->
   requireAuth (Some (fst attempt)) path = Next /\
   requireGuest (Some (fst attempt)) = Redirect "/dashboard") /\
  (snd attempt <> Json 200 -> fst attempt = session) /\
  requireAuth (fst (logout (Some (fst attempt)) None)) path =
    (if JS.startsWith path "/api/" then Json 401 else Redirect "/login").
Proof.
  cbv zeta. unfold login, requireAuth, requireGuest, logout, is_authenticated.
  destruct (String.eqb body_username (env_or env_username "admin")) eqn:E;
    [apply String.eqb_eq in E|apply String.eqb_neq in E];
    destruct compare as [e|[|]]; cbn [fst snd authenticated];
    destruct (authenticated session) eqn:A;
    destruct (JS.startsWith path "/api/");
    intuition (try discriminate; try congruence).
Qed.

End AuthFacts.

(** ** Media messages *)
Section MediaFacts.
Import Manager Media.
Variable byteLength : string -> Z.
Variable megabytes : Z -> string.

Abbreviation sendMedia := (Media.sendMedia byteLength megabytes).

Ltac media_cases :=
  repeat match goal with
  | |- context [match ?x with _ => _ end] =>
      lazymatch x with
      | context [match _ with _ => _ end] => fail
      | _ => destruct x eqn:?
      end
  end.

Lemma deriveDefaultFilename_truthy mimetype :
  JS.truthy (deriveDefaultFilename mimetype) = true.
Proof. reflexivity. Qed.

(** X23: [sendMedia] neither reads nor writes the message queues: a
    media message is sent, or refused, in the same way whatever the depth of
    the queue of the account, also beyond the cap of 20 that stops text
    messages, and the queues are as they were after the call. *)
Theorem sendMedia_ignores_queue accountId number media caption options download pathname
  outcome (queues : option (gmap string (list QueueItem))) (w : World) :
  let r := sendMedia accountId number media caption options download pathname outcome w in
  let r' := sendMedia accountId number media caption options download pathname outcome
              (set_messageQueues queues w) in
  result r' = result r /\ sent r' = sent r /\ logged r' = logged r /\
  messageQueues (world r) = messageQueues w /\
  messageQueues (world r') = queues.
Proof.
  cbv zeta. unfold Media.sendMedia, thrown.
  cbn [clients accountStatus numberFormatCache set_messageQueues].
  media_cases; cbn; auto.
Qed.

Lemma status_ready (status : option string) :
  status_not_ready status = false -> status = Some "ready".
Proof.
  destruct status as [st|]; [|discriminate]. cbn.
  intros H. apply negb_false_iff, String.eqb_eq in H. now subst.
Qed.

(** X24: whatever [sendMedia] hands to a transport client is for an
    account that is [ready], has a MIME type and a file name that are not
    empty and a body within 16 MiB, and asks for a voice note only for an
    audio type and never for a voice note and a document at once. *)
Theorem sendMedia_sends_checked_media accountId number media caption options download
  pathname outcome (w : World) (call : MediaSend) :
  sent (sendMedia accountId number media caption options download pathname outcome w)
    = Some call ->
  accountStatus w !! accountId = Some "ready" /\
  JS.truthy (mm_mimetype (ms_media call)) = true /\
  JS.truthy (mm_filename (ms_media call)) = true /\
  (byteLength (mm_data (ms_media call)) <= MAX)%Z /\
  so_sendAudioAsVoice (ms_options call) =
    JS.startsWith (mm_mimetype (ms_media call)) "audio/" && sendAudioAsVoice options /\
  so_sendAudioAsVoice (ms_options call) && so_sendMediaAsDocument (ms_options call) = false.
Proof.
  unfold Media.sendMedia, thrown.
  media_cases; cbn [sent]; try discriminate; intros [= <-];
    cbn [ms_media ms_options mm_mimetype mm_filename mm_data
         so_sendAudioAsVoice so_sendMediaAsDocument andb];
    repeat match goal with
    | H : negb _ = false |- _ => apply negb_false_iff in H
    | H : (_ <? _)%Z = false |- _ => apply Z.ltb_ge in H
    | H : status_not_ready _ = false |- _ => apply status_ready in H
    end;
    repeat split; auto; try (symmetry; assumption).
Qed.

(** X25: [sendMedia] logs a send that went through and nothing else:
    a call that throws, for whatever reason, leaves no record, where a text
    message that fails inside [sendMessage] is logged as failed. *)
Theorem sendMedia_logs_only_success accountId number media caption options download
  pathname outcome (w : World) :
  let r := sendMedia accountId number media caption options download pathname outcome w in
  (forall e, result r = inl e -> logged r = None) /\
  (forall res, result r = inr res -> is_Some (logged r) /\ is_Some (sent r)).
Proof.
  cbv zeta. unfold Media.sendMedia, thrown.
  media_cases; cbn; repeat split; intros; try discriminate; eauto.
Qed.

End MediaFacts.

Lemma sendMedia_sends_checked_media_witness :
  let byteLength (s : string) := (Z.of_nat (String.length s) * 3 / 4)%Z in
  let media :=
    {| Media.data := Some "data:audio/ogg;base64,T2dnUw=="; Media.url := None;
       Media.mimetype := Some "audio/ogg"; Media.filename := None |} in
  let options := {| Media.sendMediaAsDocument := true; Media.sendAudioAsVoice := true |} in
  let call :=
    {| Media.ms_accountId := "acc"; Media.ms_formattedNumber := "919876543210@c.us";
       Media.ms_media :=
         {| Media.mm_mimetype := "audio/ogg"; Media.mm_data := "T2dnUw==";
            Media.mm_filename := "media.ogg" |};
       Media.ms_options :=
         {| Media.so_caption := "note"; Media.so_sendAudioAsVoice := true;
            Media.so_sendMediaAsDocument := false |} |} in
  Media.sent (Media.sendMedia byteLength (fun _ => "") "acc" "+919876543210" (Some media)
                "note" options (inl "not asked") None (inr Scenario.delivered)
                Scenario.stored_world) = Some call /\
  Manager.accountStatus Scenario.stored_world !! "acc" = Some "ready".
Proof.
  cbv zeta. split; [vm_compute; reflexivity|].
  refine (proj1 (sendMedia_sends_checked_media
    (fun s => (Z.of_nat (String.length s) * 3 / 4)%Z) (fun _ => "")
    "acc" "+919876543210"
    (Some {| Media.data := Some "data:audio/ogg;base64,T2dnUw=="; Media.url := None;
             Media.mimetype := Some "audio/ogg"; Media.filename := None |})
    "note" {| Media.sendMediaAsDocument := true; Media.sendAudioAsVoice := true |}
    (inl "not asked") None (inr Scenario.delivered) Scenario.stored_world _ _)).
  vm_compute. reflexivity.
Defined.

(** ** File names for media *)
Section FilenameFacts.
Import Media.

Lemma split_segments sep s seg :
  In seg (split sep s) -> JS.includes seg (String sep "") = false.
Proof.
  revert seg. induction s as [|c r IH]; intros seg; cbn [split].
  - intros [<-|[]]. reflexivity.
  - destruct (Ascii.eqb c sep) eqn:E.
    + intros [<-|H]; [reflexivity|auto].
    + destruct (split sep r) as [|first others] eqn:S.
      * intros [<-|[]]. cbn [JS.includes JS.startsWith].
        rewrite Ascii.eqb_sym, E. reflexivity.
      * intros [<-|H].
        -- cbn [JS.includes JS.startsWith]. rewrite Ascii.eqb_sym, E. cbn [andb orb].
           apply IH. now left.
        -- apply IH. now right.
Qed.

Lemma split_whole s : JS.includes s "/" = false -> split "/" s = [s].
Proof.
  induction s as [|c r IH]; [reflexivity|]. cbn [JS.includes JS.startsWith split].
  rewrite Ascii.eqb_sym. destruct (Ascii.eqb c "/"); [discriminate|].
  cbn [andb orb]. intros H. now rewrite (IH H).
Qed.

Lemma split_first s rest :
  JS.includes s "/" = false -> split "/" (s +:+ "/" +:+ rest) = s :: split "/" rest.
Proof.
  induction s as [|c r IH]; [reflexivity|]. cbn [JS.includes JS.startsWith].
  intros H. change (String c r +:+ "/" +:+ rest) with (String c (r +:+ "/" +:+ rest)).
  cbn [split]. rewrite Ascii.eqb_sym in H. destruct (Ascii.eqb c "/"); [discriminate|].
  cbn [andb orb] in H. now rewrite (IH H).
Qed.

(** X26: the default file name is always [media.] and an extension
    that is not empty and has no slash in it.  The extension is [bin] for
    a MIME type without a slash; for a MIME type with one it is what
    stands between the first slash and the next one, or the end, and
    [bin] if nothing stands there. *)
Theorem deriveDefaultFilename_shape (mimetype : string) :
  (exists ext,
     deriveDefaultFilename mimetype = "media." +:+ ext /\
     ext <> "" /\
     JS.includes ext "/" = false) /\
  (JS.includes mimetype "/" = false -> deriveDefaultFilename mimetype = "media.bin") /\
  (forall type subtype tail,
     JS.includes type "/" = false -> JS.includes subtype "/" = false ->
     mimetype = type +:+ "/" +:+ subtype \/
     mimetype = type +:+ "/" +:+ subtype +:+ "/" +:+ tail ->
     deriveDefaultFilename mimetype =
       "media." +:+ (if JS.truthy subtype then subtype else "bin")).
Proof.
  split; [|split].
  - unfold deriveDefaultFilename.
    destruct (nth_error (split "/" mimetype) 1) as [e|] eqn:N.
    + destruct (JS.truthy e) eqn:T.
      * exists e. split; [reflexivity|]. split; [now destruct e|].
        eapply split_segments, nth_error_In, N.
      * exists "bin". split; [reflexivity|]. split; [discriminate|reflexivity].
    + exists "bin". split; [reflexivity|]. split; [discriminate|reflexivity].
  - intros H. unfold deriveDefaultFilename. now rewrite (split_whole _ H).
  - intros type subtype tail Ht Hs [->| ->]; unfold deriveDefaultFilename;
      rewrite (split_first _ _ Ht).
    + now rewrite (split_whole _ Hs).
    + now rewrite (split_first _ _ Hs).
Qed.

(** X27: for a MIME type of two parts the default file name has the
    second part as its extension. *)
Theorem deriveDefaultFilename_subtype (type subtype : string) :
  JS.includes type "/" = false -> JS.includes subtype "/" = false -> subtype <> "" ->
  deriveDefaultFilename (type +:+ "/" +:+ subtype) = "media." +:+ subtype.
Proof.
  intros Ht Hs Hne. unfold deriveDefaultFilename.
  rewrite split_first by exact Ht. rewrite split_whole by exact Hs. cbn [nth_error].
  destruct subtype; [contradiction|reflexivity].
Qed.

Lemma deriveDefaultFilename_subtype_witness :
  deriveDefaultFilename "image/png" = "media.png".
Proof.
  apply (deriveDefaultFilename_subtype "image" "png"); [reflexivity|reflexivity|discriminate].
Defined.

Lemma span_parameterless_app type rest :
  JS.includes type ";" = false ->
  span_parameterless (type +:+ ";" +:+ rest) = (type, ";" +:+ rest).
Proof.
  induction type as [|c r IH]; [reflexivity|]. cbn [JS.includes JS.startsWith].
  intros H. change (String c r +:+ ";" +:+ rest) with (String c (r +:+ ";" +:+ rest)).
  cbn [span_parameterless]. rewrite Ascii.eqb_sym in H.
  destruct (Ascii.eqb c ";"); [discriminate|]. cbn [andb orb] in H.
  now rewrite (IH H).
Qed.

(** X28: a body given as a data URL, [data:] then a type without [;]
    then [;base64,], is stripped of that prefix: what [sendMedia] sizes and
    sends is the base64 text behind the comma. *)
Theorem after_data_url_prefix_strips (type base64 : string) :
  type <> "" -> JS.includes type ";" = false ->
  after_data_url_prefix ("data:" +:+ type +:+ ";base64," +:+ base64) = Some base64.
Proof.
  intros Hne Hs. unfold after_data_url_prefix.
  change (startsWith_i ("data:" +:+ type +:+ ";base64," +:+ base64) "data:")
    with (Some (type +:+ ";" +:+ ("base64," +:+ base64))).
  cbv iota beta. rewrite span_parameterless_app by exact Hs. cbn [fst snd].
  destruct type; [contradiction|reflexivity].
Qed.

Lemma after_data_url_prefix_strips_witness :
  after_data_url_prefix "data:image/png;base64,iVBORw0KGgo=" = Some "iVBORw0KGgo=".
Proof.
  apply (after_data_url_prefix_strips "image/png" "iVBORw0KGgo=");
    [discriminate|reflexivity].
Defined.

End FilenameFacts.

(** ** Who may reply through a webhook secret *)
Section ReplyFacts.
Import Server.

(** X29: with nothing cached for the account and the secret, a reply
    request is let through only for a secret that an active webhook of that
    very account has in the table: the webhook found is a row of the table,
    of the account named in the request, with the secret given, and active;
    a paused webhook or one of another account does not open the way. *)
Theorem webhook_reply_validate_cold (account_id number webhook_secret : string) (now : Z)
  (s : Server.t) (webhook : Db.Webhook) :
  webhookSecretCache s !! cacheKey account_id webhook_secret = None ->
  Db.queryCache (db s) !! Db.webhooks_key account_id = None ->
  snd (webhook_reply_validate account_id number webhook_secret now Db.Served s)
    = inr (Some webhook) ->
  In webhook (Db.webhooks (db s)) /\
  Db.account_id webhook = account_id /\
  Db.secret webhook = webhook_secret /\
  Db.is_active webhook = true.
Proof.
  intros Hc Hq. unfold webhook_reply_validate.
  destruct (_ || _); [discriminate|]. rewrite Hc.
  rewrite getWebhooks_miss by exact Hq. cbn [snd].
  intros [= H]. apply find_some in H as [Hin Hp].
  apply filter_In in Hin as [Hin Ha].
  apply andb_prop in Hp as [Hsec Hact].
  apply String.eqb_eq in Ha, Hsec. auto.
Qed.

Lemma webhook_reply_validate_cold_witness :
  In Scenario.crm_hook (Db.webhooks (db Scenario.server)) /\
  Db.account_id Scenario.crm_hook = "acc" /\
  Db.secret Scenario.crm_hook = "s3cret" /\
  Db.is_active Scenario.crm_hook = true.
Proof.
  apply (webhook_reply_validate_cold "acc" "+919876543210" "s3cret" 1000
           Scenario.server Scenario.crm_hook); reflexivity.
Defined.

(** X30: a reply request that is not let through, for want of a field,
    of a valid secret or of an answer of the database, reaches neither a
    transport client nor a message queue, and logs nothing. *)
Theorem webhook_reply_refused_is_inert (account_id number message webhook_secret : string)
  (isN8n : bool) (now : Z) (r : Db.Reply)
  (outcome : Manager.Error + Manager.SentMessage) (s : Server.t) :
  (forall webhook,
     snd (webhook_reply_validate account_id number webhook_secret now r s)
       <> inr (Some webhook)) ->
  let res := webhook_reply account_id number message webhook_secret isN8n now r outcome s in
  Manager.transport (manager (fst res)) = Manager.transport (manager s) /\
  Manager.messageQueues (manager (fst res)) = Manager.messageQueues (manager s) /\
  Manager.scheduled_logs (manager (fst res)) = Manager.scheduled_logs (manager s) /\
  snd res <> Ok /\ snd res <> Pending.
Proof.
  intros H. cbv zeta. unfold webhook_reply.
  revert H. unfold webhook_reply_validate.
  destruct (_ || _); [intros _; cbn; repeat split; discriminate|].
  destruct (webhookSecretCache s !! cacheKey account_id webhook_secret) as [[wh|]|].
  - intros H. exfalso. now apply (H wh).
  - intros _. cbn. repeat split; discriminate.
  - destruct (Db.getWebhooks account_id now r (db s)) as [d [e|webhooks]].
    + intros _. cbn. repeat split; discriminate.
    + cbn [snd fst]. destruct (find _ webhooks) as [wh|].
      * intros H. exfalso. now apply (H wh).
      * intros _. cbn. repeat split; discriminate.
Qed.

Lemma webhook_reply_refused_is_inert_witness :
  snd (webhook_reply "acc" "+919876543210" "hello" "old" false 1000 Db.Served
         (inr Scenario.delivered) Scenario.server) <> Ok.
Proof.
  refine (proj1 (proj2 (proj2 (proj2 (webhook_reply_refused_is_inert "acc" "+919876543210"
    "hello" "old" false 1000 Db.Served (inr Scenario.delivered) Scenario.server _))))).
  intros webhook. vm_compute. discriminate.
Defined.

End ReplyFacts.
